(** * The generic query pipeline of the admin API (FilterService)

    A shallow embedding of [FilterService] from
    [admin-api/src/services/filter.service.ts]: filter conditions are turned
    into clauses of a store scan, the scan result is sorted in memory and then
    cut into a page.

    Conventions of the embedding:
    - JavaScript strings are [string]s, numbers are integral doubles together
      with NaN and the two infinities ([jsnum]);
    - an exception (or a rejected promise) is the left summand of [Result];
    - the built-ins of the host ([localeCompare], [decodeURIComponent], ...)
      and the evaluation of one scan clause by the store are interfaces
      ([Runtime], [Store]); the service is written once against them. *)

From Stdlib Require Import ZArith List String Ascii Bool Lia DecimalString.
From Stdlib Require Import Permutation Sorted.
Import ListNotations.

Local Open Scope string_scope.
Local Open Scope list_scope.
Local Open Scope Z_scope.

(** ** JavaScript values *)

Module Js.

(** Numbers: the integers, NaN and the infinities. *)
Inductive jsnum : Type :=
| JInt (z : Z)
| JNaN
| JPosInf
| JNegInf.

(** [a - b] on numbers. *)
Definition sub (a b : jsnum) : jsnum :=
  match a, b with
  | JNaN, _ | _, JNaN => JNaN
  | JInt x, JInt y => JInt (x - y)
  | JInt _, JPosInf => JNegInf
  | JInt _, JNegInf => JPosInf
  | JPosInf, JPosInf => JNaN
  | JPosInf, _ => JPosInf
  | JNegInf, JNegInf => JNaN
  | JNegInf, _ => JNegInf
  end.

(** [v < 0], as the sort reads a comparator's answer (NaN counts as 0). *)
Definition negative (v : jsnum) : bool :=
  match v with
  | JInt z => z <? 0
  | JNegInf => true
  | JNaN | JPosInf => false
  end.

(** [Math.ceil(a / b)] for integers [a] and [b]. *)
Definition ceil_div (a b : Z) : jsnum :=
  if b =? 0 then
    if a =? 0 then JNaN else if 0 <? a then JPosInf else JNegInf
  else JInt (- ((- a) / b)).

Inductive Exn : Type :=
| TypeError (msg : string)
| URIError (msg : string)
| StoreFailure (msg : string).

(** A computation that returns or throws. *)
Definition Result (A : Type) : Type := (Exn + A)%type.

Definition ret {A} (a : A) : Result A := inr a.
Definition throw {A} (e : Exn) : Result A := inl e.
Definition bind {A B} (c : Result A) (k : A -> Result B) : Result B :=
  match c with
  | inl e => inl e
  | inr a => k a
  end.

Inductive Value : Type :=
| VUndefined
| VNull
| VString (s : string)
| VNumber (n : jsnum)
| VBoolean (b : bool)
| VDate (time : jsnum).

(** [v === null || v === undefined] *)
Definition nullish (v : Value) : bool :=
  match v with
  | VUndefined | VNull => true
  | _ => false
  end.

(** An optional string argument seen as a value. *)
Definition ofOpt (o : option string) : Value :=
  match o with
  | Some s => VString s
  | None => VUndefined
  end.

(** A plain object: its own properties in order. *)
Definition Object : Type := list (string * Value).

(** [o[key]]; an absent property reads as [undefined]. *)
Fixpoint get (o : Object) (key : string) : Value :=
  match o with
  | [] => VUndefined
  | (k, v) :: rest => if String.eqb k key then v else get rest key
  end.

(** [s.split(sep)] for a non-empty separator: [skip] counts the characters
    of a separator occurrence still to be passed over. *)
Fixpoint split_from (sep : string) (skip : nat) (s : string) : list string :=
  match s with
  | EmptyString => [EmptyString]
  | String c rest =>
      match skip with
      | S k => split_from sep k rest
      | O =>
          if String.prefix sep s
          then EmptyString :: split_from sep (String.length sep - 1) rest
          else match split_from sep 0 rest with
               | piece :: pieces => String c piece :: pieces
               | [] => [String c EmptyString]
               end
      end
  end.

Definition split (s sep : string) : list string := split_from sep 0 s.

(** [s.includes(sub)] *)
Fixpoint includes (s sub : string) : bool :=
  String.prefix sub s ||
  match s with
  | EmptyString => false
  | String _ rest => includes rest sub
  end.

(** [l.slice(start, end)], negative indices counting from the end. *)
Definition slice {A} (l : list A) (start stop : Z) : list A :=
  let len := Z.of_nat (List.length l) in
  let k := if start <? 0 then Z.max (len + start) 0 else Z.min start len in
  let final := if stop <? 0 then Z.max (len + stop) 0 else Z.min stop len in
  firstn (Z.to_nat (final - k)) (skipn (Z.to_nat k) l).

(** [Array.prototype.sort] is stable, and the engine asks the comparator
    [comparefn(later, earlier) < 0] only: an element moves in front of an
    earlier one exactly when that answer is negative. *)
Section Sort.
Context {A : Type} (comparefn : A -> A -> jsnum).

Fixpoint insert (x : A) (sorted : list A) : list A :=
  match sorted with
  | [] => [x]
  | y :: rest =>
      if negative (comparefn y x) then y :: insert x rest
      else x :: y :: rest
  end.

Definition sort (l : list A) : list A := fold_right insert [] l.
End Sort.

(** What the service needs from the host. *)
Class Runtime : Type := {
  localeCompare : string -> string -> Z;
  toUpperCase : string -> string;
  toLowerCase : string -> string;
  (** [String(v)] *)
  toStr : Value -> string;
  (** [Number(s)] *)
  toNumber : string -> jsnum;
  (** the time value of [new Date(s)], NaN for an invalid date *)
  dateParse : string -> jsnum;
  decodeURIComponent : string -> Result string
}.

(** [localeCompare] never ranks two strings both ways. *)
Class Collation (rt : Runtime) : Prop := {
  localeCompare_asym :
    forall a b, localeCompare a b < 0 -> ~ localeCompare b a < 0
}.

End Js.

Notation "x <- c ;; k" := (Js.bind c (fun x => k))
  (at level 61, c at next level, right associativity).

(** [xs.map(f)] for an [f] that may throw: the first exception wins. *)
Fixpoint mapM {A B} (f : A -> Js.Result B) (xs : list A) : Js.Result (list B) :=
  match xs with
  | [] => Js.ret []
  | x :: rest =>
      y <- f x ;;
      ys <- mapM f rest ;;
      Js.ret (y :: ys)
  end.

(** [xs.forEach] threading an accumulator through a body that may throw. *)
Fixpoint foldM {A B} (f : A -> B -> Js.Result A) (acc : A) (xs : list B)
  : Js.Result A :=
  match xs with
  | [] => Js.ret acc
  | x :: rest => acc' <- f acc x ;; foldM f acc' rest
  end.

Import Js.

(** ** The store: a scan with a filter expression *)

Module Dynamo.

(** A stored item. *)
Definition Item : Type := Js.Object.

(** The comparison that closes a [where(field)]. *)
Inductive Condition : Type :=
| CEq (v : Value)
| CNe (v : Value)
| CContains (v : Value)
| CBetween (lo hi : Value)
| CGt (v : Value)
| CGe (v : Value)
| CLt (v : Value)
| CLe (v : Value)
| CNull
| CNotNull.

(** One conjunct of the filter expression. *)
Definition Clause : Type := (string * Condition)%type.

(** A table: its items in scan order, and the failure a scan of it meets,
    if any (time-out, throttling, lost connection). *)
Record Model : Type := {
  items : list Item;
  fault : option Exn
}.

(** The scan builder: the table it reads and the clauses attached so far. *)
Record Scan : Type := {
  table : Model;
  clauses : list Clause
}.

(** A table that answers every scan. *)
Definition healthy (rows : list Item) : Model :=
  {| items := rows; fault := None |}.

(** A table whose scan fails with [e]. *)
Definition failing (rows : list Item) (e : Exn) : Model :=
  {| items := rows; fault := Some e |}.

(** [model.scan()] *)
Definition scan (model : Model) : Scan :=
  {| table := model; clauses := [] |}.

(** [q.where(field).<condition>]: one more conjunct. *)
Definition where_ (q : Scan) (field : string) (c : Condition) : Scan :=
  {| table := table q; clauses := clauses q ++ [(field, c)] |}.

(** How the store decides one clause on one item. *)
Class Store : Type := {
  holds : string -> Condition -> Item -> bool
}.

(** An item is returned when every clause holds of it. *)
Definition matches `{Store} (cs : list Clause) (item : Item) : bool :=
  forallb (fun c => holds (fst c) (snd c) item) cs.

(** [q.exec()]: the scan fails as a whole or returns the matching items in
    scan order. *)
Definition exec `{Store} (q : Scan) : Result (list Item) :=
  match fault (table q) with
  | Some e => throw e
  | None => ret (filter (matches (clauses q)) (items (table q)))
  end.

End Dynamo.

Import Dynamo.

(** ** FilterService *)

Module FilterService.

(** [Record<string, string>]: field name to type name. *)
Definition FieldTypes : Type := list (string * string).

(** [fieldTypes[field]] *)
Fixpoint lookup (fieldTypes : FieldTypes) (field : string) : option string :=
  match fieldTypes with
  | [] => None
  | (k, t) :: rest => if String.eqb k field then Some t else lookup rest field
  end.

Record PageResult (T : Type) : Type := {
  data : list T;
  count : Z;
  total : Z;
  page : Z;
  pageCount : jsnum
}.

Arguments data {T} _.
Arguments count {T} _.
Arguments total {T} _.
Arguments page {T} _.
Arguments pageCount {T} _.

Section Service.
Context {rt : Runtime} {store : Store}.

(** [value] is [None] when the filter string has no third part. *)
Definition convertFilterValue (field : string) (value : option string)
    (fieldTypes : FieldTypes) : Result Value :=
  let fieldType := lookup fieldTypes field in
  let case (t : string) :=
    match fieldType with
    | Some t' => String.eqb t' t
    | None => false
    end in
  if case "Number" then
    ret (VNumber match value with
                 | Some v => toNumber v
                 | None => JNaN
                 end)
  else if case "Date" then
    ret (VDate match value with
               | Some v => dateParse v
               | None => JNaN
               end)
  else if case "Boolean" then
    match value with
    | Some v => ret (VBoolean (String.eqb (toLowerCase v) "true"))
    | None => throw (TypeError "undefined has no toLowerCase")
    end
  else ret (ofOpt value).

(** The operators the [switch] has a case for. *)
Definition operators : list string :=
  ["eq"; "ne"; "cont"; "between"; "gt"; "gte"; "lt"; "lte"; "isnull"; "notnull"].

Definition recognized (operator : string) : bool :=
  existsb (String.eqb operator) operators.

(** The body of the [forEach] in [applyDynamoDBFilters]: the three names
    bound from [filterStr.split('||')], then the [switch]. *)
Definition applyFilter (fieldTypes : FieldTypes) (scanQuery : Scan)
    (filterStr : string) : Result Scan :=
  let parts := split filterStr "||" in
  let field := hd EmptyString parts in
  let operator := nth_error parts 1 in
  let value := nth_error parts 2 in
  let case (op : string) :=
    match operator with
    | Some op' => String.eqb op' op
    | None => false
    end in
  let converted (c : Value -> Condition) :=
    v <- convertFilterValue field value fieldTypes ;;
    ret (where_ scanQuery field (c v)) in
  if case "eq" then converted CEq
  else if case "ne" then converted CNe
  else if case "cont" then ret (where_ scanQuery field (CContains (ofOpt value)))
  else if case "between" then
    match value with
    | None => throw (TypeError "undefined has no includes")
    | Some v =>
        if includes v "," then
          ends <- mapM decodeURIComponent (split v ",") ;;
          ret (where_ scanQuery field
                 (CBetween (ofOpt (nth_error ends 0)) (ofOpt (nth_error ends 1))))
        else ret scanQuery
    end
  else if case "gt" then converted CGt
  else if case "gte" then converted CGe
  else if case "lt" then converted CLt
  else if case "lte" then converted CLe
  else if case "isnull" then ret (where_ scanQuery field CNull)
  else if case "notnull" then ret (where_ scanQuery field CNotNull)
  else ret scanQuery.

Definition applyDynamoDBFilters (scanQuery : Scan) (filters : list string)
    (fieldTypes : FieldTypes) : Result Scan :=
  foldM (applyFilter fieldTypes) scanQuery filters.

(** The comparator handed to [sort]. *)
Definition compareBy (sortField : string) (isDesc : bool) (a b : Item) : jsnum :=
  let aValue := get a sortField in
  let bValue := get b sortField in
  if nullish aValue then JInt 1
  else if nullish bValue then JInt (-1)
  else
    match aValue, bValue with
    | VString x, VString y =>
        JInt (if isDesc then localeCompare y x else localeCompare x y)
    | VNumber x, VNumber y =>
        if isDesc then sub y x else sub x y
    | VDate x, VDate y =>
        if isDesc then sub y x else sub x y
    | _, _ =>
        let aStr := toStr aValue in
        let bStr := toStr bValue in
        JInt (if isDesc then localeCompare bStr aStr else localeCompare aStr bStr)
    end.

(** [sort.split(',')[0]] *)
Definition sortFieldOf (sort : string) : string :=
  hd EmptyString (split sort ",").

(** [sortDirection?.toUpperCase() === 'DESC'] *)
Definition isDescOf (sort : string) : bool :=
  match nth_error (split sort ",") 1 with
  | Some sortDirection => String.eqb (toUpperCase sortDirection) "DESC"
  | None => false
  end.

Definition applySorting (data : list Item) (sort : string) : list Item :=
  if String.eqb sort "" then data
  else Js.sort (compareBy (sortFieldOf sort) (isDescOf sort)) data.

Definition applyPagination {T} (data : list T) (page limit : Z) : PageResult T :=
  let total := Z.of_nat (List.length data) in
  let startIndex := (page - 1) * limit in
  let endIndex := startIndex + limit in
  let paginatedData := slice data startIndex endIndex in
  let pageCount := ceil_div total limit in
  {| data := paginatedData;
     count := Z.of_nat (List.length paginatedData);
     total := total;
     page := page;
     pageCount := pageCount |}.

Definition processQuery (model : Model) (filters : list string)
    (fieldTypes : FieldTypes) (sort : string) (page limit : Z)
  : Result (PageResult Item) :=
  let scanQuery := scan model in
  scanQuery <-
    (if (0 <? Z.of_nat (List.length filters))
     then applyDynamoDBFilters scanQuery filters fieldTypes
     else ret scanQuery) ;;
  allData <- exec scanQuery ;;
  let sortedData := applySorting allData sort in
  ret (applyPagination sortedData page limit).

End Service.

End FilterService.

Import FilterService.

(** ** FilterService.extractFieldTypes *)

Module SchemaTypes.

(** What the function reads of one schema attribute: [None] when
    [field && field.type] is falsy, otherwise [field.type.name], itself
    possibly absent. *)
Definition FieldDef : Type := option (option string).

(** A schema: its [attributes], if it has any; an object has each key
    once. *)
Record SchemaShape : Type := {
  attributes : option (list (string * FieldDef))
}.

(** The three places a schema is looked for: [model.schema],
    [model.$__.schema] and [model.constructor.schema]. *)
Record ModelShape : Type := {
  schema : option SchemaShape;
  internalSchema : option SchemaShape;
  constructorSchema : option SchemaShape
}.

(** The [switch] on [field.type.name]. *)
Definition filterType (name : option string) : string :=
  match name with
  | Some n =>
      if String.eqb n "String" then "String"
      else if String.eqb n "Number" then "Number"
      else if String.eqb n "Date" then "Date"
      else if String.eqb n "Boolean" then "Boolean"
      else "String"
  | None => "String"
  end.

(** [model] is [None] for a null or undefined model. *)
Definition extractFieldTypes (model : option ModelShape) : FieldTypes :=
  let schema :=
    match model with
    | None => None
    | Some m =>
        match schema m with
        | Some s => Some s
        | None =>
            match internalSchema m with
            | Some s => Some s
            | None => constructorSchema m
            end
        end
    end in
  match schema with
  | None => []
  | Some s =>
      match attributes s with
      | None => []
      | Some attrs =>
          flat_map (fun entry : string * FieldDef =>
                      match snd entry with
                      | Some name => [(fst entry, filterType name)]
                      | None => []
                      end) attrs
      end
  end.

End SchemaTypes.

(** ** OrderRepository and OrdersService *)

Module OrderRepository.
Section Repository.
Context {rt : Runtime} {store : Store}.

Definition getFieldTypes : FieldTypes :=
  [("id", "String"); ("name", "String"); ("phone", "String");
   ("message", "String"); ("status", "Number"); ("createdAt", "Date");
   ("updatedAt", "Date")].

(** [orderModel.scan().exec()] *)
Definition findAll (orderModel : Model) : Result (list Item) :=
  exec (scan orderModel).

(** An argument left out takes its default. *)
Definition findAllPaginated (orderModel : Model) (page limit : option Z)
    (sort : option string) (filters : option (list string))
  : Result (PageResult Item) :=
  let page := match page with Some p => p | None => 1 end in
  let limit := match limit with Some l => l | None => 10 end in
  let sort := match sort with Some s => s | None => "id,DESC" end in
  let filters := match filters with Some fs => fs | None => [] end in
  processQuery orderModel filters getFieldTypes sort page limit.

End Repository.
End OrderRepository.

Module OrdersService.
Section Service.
Context {rt : Runtime} {store : Store}.

Definition getAllOrders (orderModel : Model) : Result (list Item) :=
  OrderRepository.findAll orderModel.

Definition getOrdersByStatus (orderModel : Model) (status : jsnum)
  : Result (list Item) :=
  let filters := [("status:" ++ toStr (VNumber status))%string] in
  result <- OrderRepository.findAllPaginated orderModel
              (Some 1) (Some 1000) (Some "") (Some filters) ;;
  ret (data result).


(** [toISOString] is the host's; it throws on an invalid date. *)
Definition getOrdersByDateRange (toISOString : jsnum -> Result string)
    (orderModel : Model) (startDate endDate : jsnum) : Result (list Item) :=
  startIso <- toISOString startDate ;;
  let startDateStr := hd EmptyString (split startIso "T") in
  endIso <- toISOString endDate ;;
  let endDateStr := hd EmptyString (split endIso "T") in
  let filters := [("createdAt:" ++ startDateStr ++ "," ++ endDateStr)%string] in
  result <- OrderRepository.findAllPaginated orderModel
              (Some 1) (Some 1000) (Some "") (Some filters) ;;
  ret (data result).

End Service.
End OrdersService.

(** ** A reference host and store

    A small instance of the two interfaces, used to run the service on
    concrete requests: byte-wise collation, ASCII case mapping, decimal
    integer literals, percent-decoding of ASCII, and a store that compares
    values of one kind only. *)

Module Ref.

Definition upper (c : ascii) : ascii :=
  let n := nat_of_ascii c in
  if andb (97 <=? n)%nat (n <=? 122)%nat then ascii_of_nat (n - 32) else c.

Definition lower (c : ascii) : ascii :=
  let n := nat_of_ascii c in
  if andb (65 <=? n)%nat (n <=? 90)%nat then ascii_of_nat (n + 32) else c.

Fixpoint mapChars (f : ascii -> ascii) (s : string) : string :=
  match s with
  | EmptyString => EmptyString
  | String c rest => String (f c) (mapChars f rest)
  end.

Definition collate (a b : string) : Z :=
  match String.compare a b with
  | Datatypes.Lt => -1
  | Datatypes.Eq => 0
  | Datatypes.Gt => 1
  end.

Definition showNum (n : jsnum) : string :=
  match n with
  | JInt z => DecimalString.NilZero.string_of_int (Z.to_int z)
  | JNaN => "NaN"
  | JPosInf => "Infinity"
  | JNegInf => "-Infinity"
  end.

Definition show (v : Value) : string :=
  match v with
  | VUndefined => "undefined"
  | VNull => "null"
  | VString s => s
  | VNumber n => showNum n
  | VBoolean b => if b then "true" else "false"
  | VDate JNaN => "Invalid Date"
  | VDate t => showNum t
  end.

Definition number (s : string) : jsnum :=
  if String.eqb s "" then JInt 0
  else match DecimalString.NilEmpty.int_of_string s with
       | Some i => JInt (Z.of_int i)
       | None => JNaN
       end.

(** Dates are written as their time value. *)
Definition date (s : string) : jsnum :=
  match DecimalString.NilEmpty.int_of_string s with
  | Some i => JInt (Z.of_int i)
  | None => JNaN
  end.

Definition hexDigit (c : ascii) : option nat :=
  let n := nat_of_ascii c in
  if andb (48 <=? n)%nat (n <=? 57)%nat then Some (n - 48)%nat
  else if andb (65 <=? n)%nat (n <=? 70)%nat then Some (n - 55)%nat
  else if andb (97 <=? n)%nat (n <=? 102)%nat then Some (n - 87)%nat
  else None.

Fixpoint decode (s : string) : Result string :=
  match s with
  | EmptyString => ret EmptyString
  | String "%" (String h (String l rest)) =>
      match hexDigit h, hexDigit l with
      | Some a, Some b =>
          if (a <? 8)%nat then
            rest' <- decode rest ;;
            ret (String (ascii_of_nat (16 * a + b)) rest')
          else throw (URIError "URI malformed")
      | _, _ => throw (URIError "URI malformed")
      end
  | String "%" _ => throw (URIError "URI malformed")
  | String c rest => rest' <- decode rest ;; ret (String c rest')
  end.

#[export] Instance runtime : Runtime := {|
  localeCompare := collate;
  toUpperCase := mapChars upper;
  toLowerCase := mapChars lower;
  toStr := show;
  toNumber := number;
  dateParse := date;
  decodeURIComponent := decode
|}.

Definition numEqb (a b : jsnum) : bool :=
  match a, b with
  | JInt x, JInt y => x =? y
  | JPosInf, JPosInf | JNegInf, JNegInf => true
  | _, _ => false
  end.

Definition valueEqb (a b : Value) : bool :=
  match a, b with
  | VString x, VString y => String.eqb x y
  | VNumber x, VNumber y => numEqb x y
  | VDate x, VDate y => numEqb x y
  | VBoolean x, VBoolean y => Bool.eqb x y
  | VNull, VNull => true
  | _, _ => false
  end.

(** [a <= b] for two values of one kind; false across kinds. *)
Definition valueLeb (a b : Value) : bool :=
  match a, b with
  | VString x, VString y => negb (collate y x <? 0)
  | VNumber (JInt x), VNumber (JInt y) => x <=? y
  | VDate (JInt x), VDate (JInt y) => x <=? y
  | _, _ => false
  end.

Definition valueLtb (a b : Value) : bool :=
  andb (valueLeb a b) (negb (valueEqb a b)).

Definition decide (field : string) (c : Condition) (item : Item) : bool :=
  let x := get item field in
  match c with
  | CEq v => valueEqb x v
  | CNe v => negb (valueEqb x v)
  | CContains (VString s) =>
      match x with
      | VString t => includes t s
      | _ => false
      end
  | CContains _ => false
  | CBetween lo hi => andb (valueLeb lo x) (valueLeb x hi)
  | CGt v => valueLtb v x
  | CGe v => valueLeb v x
  | CLt v => valueLtb x v
  | CLe v => valueLeb x v
  | CNull => nullish x
  | CNotNull => negb (nullish x)
  end.

#[export] Instance store : Store := {| holds := decide |}.

Definition num (z : Z) : Value := VNumber (JInt z).

(** The orders of the spec's scenarios. *)
Definition orders : list Item :=
  [ [("id", num 1); ("status", num 1)];
    [("id", num 2); ("status", num 0)];
    [("id", num 3); ("status", num 1)] ].

Definition orderTypes : FieldTypes :=
  [("id", "String"); ("name", "String"); ("phone", "String");
   ("message", "String"); ("status", "Number"); ("createdAt", "Date");
   ("updatedAt", "Date")].

Definition people : list Item :=
  [ [("name", VString "John")]; [("name", VString "Sarah")] ].

(** Four records, two of them without a usable [id]. *)
Definition sparse : list Item :=
  [ [("id", VNull); ("name", VString "a")];
    [("id", num 2)];
    [("name", VString "b")];
    [("id", num 1)] ].

(** Six numbers to cut into pages. *)
Definition six : list Z := [10; 20; 30; 40; 50; 60].

(** The order schema as [extractFieldTypes] would find it: [meta] has no
    type, [tags] has a type the filter does not know. *)
Definition orderSchema : SchemaTypes.SchemaShape :=
  {| SchemaTypes.attributes :=
       Some [("id", Some (Some "String")); ("status", Some (Some "Number"));
             ("createdAt", Some (Some "Date")); ("meta", None);
             ("tags", Some (Some "Set"))] |}.

Definition orderShape : SchemaTypes.ModelShape :=
  {| SchemaTypes.schema := Some orderSchema;
     SchemaTypes.internalSchema := None;
     SchemaTypes.constructorSchema := None |}.

(** An ISO form for the epoch only. *)
Definition isoString (t : jsnum) : Result string :=
  match t with
  | JInt 0 => ret "1970-01-01T00:00:00.000Z"
  | _ => throw (TypeError "Invalid time value")
  end.

End Ref.


(** ** Vocabulary of the properties *)

Section Vocabulary.
Context {rt : Runtime} {store : Store}.

(** The operator a filter string carries, if it has a second part. *)
Definition operatorOf (filterStr : string) : option string :=
  nth_error (split filterStr "||") 1.

(** The raw value a filter string carries, if it has a third part. *)
Definition valueOf (filterStr : string) : option string :=
  nth_error (split filterStr "||") 2.

Definition fieldOf (filterStr : string) : string :=
  hd EmptyString (split filterStr "||").

(** [q] with the clauses [cs] attached after its own. *)
Definition extend (q : Scan) (cs : list Clause) : Scan :=
  {| table := table q; clauses := clauses q ++ cs |}.

(** A scan of no table at all, to read off the clauses a filter adds. *)
Definition blank : Scan := scan (healthy []).

(** The clauses one filter string contributes. *)
Definition clausesFor (fieldTypes : FieldTypes) (filterStr : string)
  : Result (list Clause) :=
  d <- applyFilter fieldTypes blank filterStr ;; ret (clauses d).

(** The clauses a list of filter strings contributes, in order. *)
Definition clausesAll (fieldTypes : FieldTypes) (filters : list string)
  : Result (list Clause) :=
  css <- mapM (clausesFor fieldTypes) filters ;; ret (List.concat css).

(** [filter(R, conditions)]: what the scan of a table holding [R] returns
    under the conditions. *)
Definition filtered (fieldTypes : FieldTypes) (R : list Item)
    (conditions : list string) : Result (list Item) :=
  scanQuery <- applyDynamoDBFilters (scan (healthy R)) conditions fieldTypes ;;
  exec scanQuery.

End Vocabulary.

Section Order.
Context {A : Type}.

(** No element would move in front of its left neighbour. *)
Fixpoint settled (comparefn : A -> A -> jsnum) (l : list A) : Prop :=
  match l with
  | [] => True
  | x :: rest =>
      match rest with
      | [] => True
      | y :: _ => negative (comparefn y x) = false
      end /\ settled comparefn rest
  end.

(** [x] may stay in front of [y]. *)
Definition notAfter (comparefn : A -> A -> jsnum) (x y : A) : Prop :=
  negative (comparefn y x) = false.

(** Once a sunken element occurs, only sunken ones follow. *)
Fixpoint sunk (sunken : A -> bool) (l : list A) : Prop :=
  match l with
  | [] => True
  | x :: rest =>
      (sunken x = true -> Forall (fun y => sunken y = true) rest) /\
      sunk sunken rest
  end.

End Order.




(** The sort field is null, missing, or an integer. *)
Definition integerOrNull (field : string) (r : Item) : Prop :=
  nullish (get r field) = true \/ exists n, get r field = VNumber (JInt n).

(** * Properties *)

Section Pagination.
Context {T : Type}.

(** For a start inside [0, stop], [slice] is "drop [start], keep up to
    [stop - start]". *)
Lemma slice_window (l : list T) (start width : Z) :
  0 <= start -> 0 <= width ->
  slice l start (start + width) =
  firstn (Z.to_nat width) (skipn (Z.to_nat start) l).
Proof.
  intros Hs Hw. unfold slice.
  destruct (Z.ltb_spec start 0) as [|_]; [lia|].
  destruct (Z.ltb_spec (start + width) 0) as [|_]; [lia|].
  set (len := Z.of_nat (List.length l)).
  destruct (Z.le_gt_cases len start) as [Hout | Hin].
  - rewrite Z.min_r by lia.
    rewrite !skipn_all2 by (subst len; lia).
    now rewrite !firstn_nil.
  - rewrite (Z.min_l start) by lia.
    destruct (Z.le_gt_cases (start + width) len) as [Hfit | Hcut].
    + rewrite Z.min_l by lia. f_equal. lia.
    + rewrite Z.min_r by lia.
      rewrite !firstn_all2; trivial; rewrite length_skipn; subst len; lia.
Qed.

Lemma slice_length_le (l : list T) (start width : Z) :
  0 <= start -> 0 <= width ->
  Z.of_nat (List.length (slice l start (start + width))) <= width.
Proof.
  intros Hs Hw. rewrite slice_window by assumption.
  rewrite length_firstn. lia.
Qed.

(** [ceil_div] on a positive divisor is the least [k] with
    [total <= k * limit]. *)
Lemma ceil_div_pos (total limit : Z) :
  0 < limit ->
  exists k, ceil_div total limit = JInt k /\
            (k - 1) * limit < total <= k * limit.
Proof.
  intros Hl. unfold ceil_div.
  destruct (Z.eqb_spec limit 0) as [|_]; [lia|].
  exists (- (- total / limit)). split; [reflexivity|].
  pose proof (Z.div_mod (- total) limit ltac:(lia)) as Hdm.
  pose proof (Z.mod_pos_bound (- total) limit Hl) as Hb.
  nia.
Qed.

(** C2. For [page >= 1] and [limit >= 1] the page returned by
    [applyPagination] has [count] equal to the length of [data] and at most
    [limit]; [total] is the length of the input; [pageCount] is the ceiling
    of [total / limit], that is the least [k] with [total <= k * limit]; and
    [pageCount] is 0 exactly when [total] is 0. *)
Theorem applyPagination_invariants (records : list T) (page limit : Z) :
  1 <= page -> 1 <= limit ->
  let r := applyPagination records page limit in
  total r = Z.of_nat (List.length records) /\
  count r = Z.of_nat (List.length (data r)) /\
  count r <= limit /\
  (exists k, pageCount r = JInt k /\
             (k - 1) * limit < total r <= k * limit) /\
  (pageCount r = JInt 0 <-> total r = 0).
Proof.
  intros Hp Hl r. subst r. unfold applyPagination. cbn [total count data pageCount].
  split; [reflexivity|]. split; [reflexivity|].
  split; [apply slice_length_le; nia|].
  destruct (ceil_div_pos (Z.of_nat (List.length records)) limit ltac:(lia))
    as (k & Hk & Hlo & Hhi).
  split; [exists k; auto|].
  rewrite Hk. split.
  - intros E. injection E as ->. lia.
  - intros E. f_equal. nia.
Qed.

(** C7. For [page >= 1] and [limit >= 1] the data of the page is the input
    with its first [(page - 1) * limit] records dropped and at most [limit]
    records kept; when that offset reaches the number of records the data is
    the empty sequence (the function is total, nothing is thrown). *)
Theorem applyPagination_offset (records : list T) (page limit : Z) :
  1 <= page -> 1 <= limit ->
  let offset := (page - 1) * limit in
  data (applyPagination records page limit) =
    firstn (Z.to_nat limit) (skipn (Z.to_nat offset) records) /\
  (Z.of_nat (List.length records) <= offset ->
   data (applyPagination records page limit) = []).
Proof.
  intros Hp Hl offset. subst offset. unfold applyPagination. cbn [data].
  rewrite slice_window by nia. split; [reflexivity|].
  intros Hout. rewrite skipn_all2 by lia. apply firstn_nil.
Qed.

End Pagination.

(** ** Building the filter expression *)

Section Filtering.
Context {rt : Runtime} {store : Store}.

Lemma extend_nil (q : Scan) : extend q [] = q.
Proof. destruct q. unfold extend. cbn. now rewrite app_nil_r. Qed.

Lemma extend_extend (q : Scan) (cs ds : list Clause) :
  extend (extend q cs) ds = extend q (cs ++ ds).
Proof. unfold extend. cbn. now rewrite app_assoc. Qed.

Lemma where_extend (q : Scan) (field : string) (c : Condition) :
  where_ q field c = extend q [(field, c)].
Proof. reflexivity. Qed.

(** A filter string only ever adds clauses, and which ones does not depend
    on the query it is applied to. *)
Lemma applyFilter_clauses (fieldTypes : FieldTypes) (q : Scan) (filterStr : string) :
  applyFilter fieldTypes q filterStr =
  (cs <- clausesFor fieldTypes filterStr ;; ret (extend q cs)).
Proof.
  unfold clausesFor, applyFilter. cbv beta zeta.
  set (field := hd EmptyString (split filterStr "||")).
  set (value := nth_error (split filterStr "||") 2).
  destruct (nth_error (split filterStr "||") 1) as [op|];
    [|cbn; now rewrite extend_nil].
  pose proof (extend_nil q) as Hnil.
  assert (Hconv : forall c,
             (v <- convertFilterValue field value fieldTypes ;;
              ret (where_ q field (c v))) =
             (cs <- (d <- (v <- convertFilterValue field value fieldTypes ;;
                           ret (where_ blank field (c v))) ;;
                     ret (clauses d)) ;;
              ret (extend q cs)))
    by (intros c; destruct (convertFilterValue field value fieldTypes); reflexivity).
  destruct (String.eqb op "eq"); [apply Hconv|].
  destruct (String.eqb op "ne"); [apply Hconv|].
  destruct (String.eqb op "cont"); [reflexivity|].
  destruct (String.eqb op "between").
  { destruct value as [v|]; [|reflexivity].
    destruct (includes v ","); [|cbn; now rewrite Hnil].
    destruct (mapM decodeURIComponent (split v ",")); reflexivity. }
  destruct (String.eqb op "gt"); [apply Hconv|].
  destruct (String.eqb op "gte"); [apply Hconv|].
  destruct (String.eqb op "lt"); [apply Hconv|].
  destruct (String.eqb op "lte"); [apply Hconv|].
  destruct (String.eqb op "isnull"); [reflexivity|].
  destruct (String.eqb op "notnull"); [reflexivity|].
  cbn. now rewrite Hnil.
Qed.

Lemma applyDynamoDBFilters_clauses (fieldTypes : FieldTypes)
    (filters : list string) (q : Scan) :
  applyDynamoDBFilters q filters fieldTypes =
  (cs <- clausesAll fieldTypes filters ;; ret (extend q cs)).
Proof.
  unfold applyDynamoDBFilters, clausesAll. revert q.
  induction filters as [|f fs IH]; intros q; cbn.
  - now rewrite extend_nil.
  - rewrite applyFilter_clauses.
    destruct (clausesFor fieldTypes f) as [e|cs]; cbn; [reflexivity|].
    rewrite IH.
    destruct (mapM (clausesFor fieldTypes) fs) as [e|css]; cbn; [reflexivity|].
    now rewrite extend_extend.
Qed.

Lemma clausesAll_app (fieldTypes : FieldTypes) (fs gs : list string) :
  clausesAll fieldTypes (fs ++ gs) =
  (cs <- clausesAll fieldTypes fs ;;
   ds <- clausesAll fieldTypes gs ;;
   ret (cs ++ ds)).
Proof.
  unfold clausesAll. induction fs as [|f fs IH]; cbn.
  - destruct (mapM (clausesFor fieldTypes) gs); reflexivity.
  - destruct (clausesFor fieldTypes f) as [e|cs]; cbn; [reflexivity|].
    destruct (mapM (clausesFor fieldTypes) (fs ++ gs)) as [e|css];
      destruct (mapM (clausesFor fieldTypes) fs) as [e'|css1];
      destruct (mapM (clausesFor fieldTypes) gs) as [e''|css2];
      cbn in *; unfold ret in *; try congruence.
    injection IH as ->. now rewrite app_assoc.
Qed.

Lemma clausesAll_cons (fieldTypes : FieldTypes) (f : string) (fs : list string) :
  clausesAll fieldTypes (f :: fs) =
  (cs <- clausesFor fieldTypes f ;;
   ds <- clausesAll fieldTypes fs ;;
   ret (cs ++ ds)).
Proof.
  unfold clausesAll. cbn.
  destruct (clausesFor fieldTypes f); cbn; [reflexivity|].
  destruct (mapM (clausesFor fieldTypes) fs); reflexivity.
Qed.

(** A filter string that contributes no clause can be left out. *)
Lemma clausesAll_skip (fieldTypes : FieldTypes) (fs gs : list string) (f : string) :
  clausesFor fieldTypes f = ret [] ->
  clausesAll fieldTypes (fs ++ f :: gs) = clausesAll fieldTypes (fs ++ gs).
Proof.
  intros Hf. rewrite !clausesAll_app, clausesAll_cons, Hf. cbn.
  destruct (clausesAll fieldTypes fs); cbn; [reflexivity|].
  destruct (clausesAll fieldTypes gs); reflexivity.
Qed.

Lemma matches_app (cs ds : list Clause) (item : Item) :
  matches (cs ++ ds) item = andb (matches cs item) (matches ds item).
Proof. unfold matches. apply forallb_app. Qed.

Lemma filter_twice {A} (f g : A -> bool) (l : list A) :
  filter g (filter f l) = filter (fun x => andb (f x) (g x)) l.
Proof.
  induction l as [|x l IH]; cbn; [reflexivity|].
  destruct (f x); cbn; [destruct (g x)|]; now rewrite IH.
Qed.

Lemma exec_extend (model : Model) (cs : list Clause) :
  exec (extend (scan model) cs) =
  match fault model with
  | Some e => throw e
  | None => ret (filter (matches cs) (items model))
  end.
Proof. reflexivity. Qed.

(** The guard on [filters.length] changes nothing: with no filter the fold
    returns the query as it is. *)
Lemma processQuery_unfold (model : Model) (filters : list string)
    (fieldTypes : FieldTypes) (sort : string) (page limit : Z) :
  processQuery model filters fieldTypes sort page limit =
  (cs <- clausesAll fieldTypes filters ;;
   allData <- exec (extend (scan model) cs) ;;
   ret (applyPagination (applySorting allData sort) page limit)).
Proof.
  unfold processQuery.
  destruct filters as [|f fs].
  - reflexivity.
  - replace (0 <? Z.of_nat (List.length (f :: fs))) with true
      by (symmetry; apply Z.ltb_lt; cbn [List.length]; lia).
    rewrite applyDynamoDBFilters_clauses.
    destruct (clausesAll fieldTypes (f :: fs)); reflexivity.
Qed.

End Filtering.

(** ** The query as a whole *)

Section Query.
Context {rt : Runtime} {store : Store}.

(** C1. [processQuery] builds the filter expression from the conditions,
    has the store scan with it, sorts the whole scan result with
    [applySorting] and cuts the sorted sequence with [applyPagination], in
    that order; it throws what building the expression or the scan throws. *)
Theorem processQuery_pipeline (model : Model) (filters : list string)
    (fieldTypes : FieldTypes) (sort : string) (page limit : Z) :
  processQuery model filters fieldTypes sort page limit =
  match applyDynamoDBFilters (scan model) filters fieldTypes with
  | inl e => throw e
  | inr scanQuery =>
      match fault model with
      | Some e => throw e
      | None =>
          let matching := filter (matches (clauses scanQuery)) (items model) in
          ret (applyPagination (applySorting matching sort) page limit)
      end
  end.
Proof.
  rewrite processQuery_unfold, applyDynamoDBFilters_clauses.
  destruct (clausesAll fieldTypes filters) as [e|cs]; cbn; [reflexivity|].
  unfold exec. cbn. destruct (fault model); reflexivity.
Qed.

Lemma filtered_clauses (fieldTypes : FieldTypes) (R : list Item)
    (conditions : list string) :
  filtered fieldTypes R conditions =
  (cs <- clausesAll fieldTypes conditions ;; ret (filter (matches cs) R)).
Proof.
  unfold filtered. rewrite applyDynamoDBFilters_clauses.
  destruct (clausesAll fieldTypes conditions); reflexivity.
Qed.

Lemma filtered_app (fieldTypes : FieldTypes) (R : list Item)
    (cs ds : list string) :
  filtered fieldTypes R (cs ++ ds) =
  (R1 <- filtered fieldTypes R cs ;; filtered fieldTypes R1 ds).
Proof.
  rewrite (filtered_clauses _ R (cs ++ ds)), (filtered_clauses _ R cs), clausesAll_app.
  destruct (clausesAll fieldTypes cs) as [e|k1]; cbn; [reflexivity|].
  rewrite filtered_clauses.
  destruct (clausesAll fieldTypes ds) as [e|k2]; cbn; [reflexivity|].
  unfold ret. f_equal. rewrite filter_twice.
  apply filter_ext. intros item. apply matches_app.
Qed.

Lemma filtered_each (fieldTypes : FieldTypes) (R : list Item)
    (conditions : list string) (out : list Item) :
  filtered fieldTypes R conditions = ret out ->
  forall c, In c conditions ->
  exists only, filtered fieldTypes R [c] = ret only /\ incl out only.
Proof.
  intros Hout c Hc.
  destruct (in_split _ _ Hc) as (before & after & ->).
  rewrite filtered_clauses, clausesAll_app, clausesAll_cons in Hout.
  rewrite filtered_clauses, clausesAll_cons.
  destruct (clausesAll fieldTypes before) as [e|k1]; cbn in Hout; [discriminate|].
  destruct (clausesFor fieldTypes c) as [e|k]; cbn in Hout |- *; [discriminate|].
  destruct (clausesAll fieldTypes after) as [e|k2]; cbn in Hout; [discriminate|].
  injection Hout as <-.
  eexists. split; [reflexivity|].
  intros item Hin. apply filter_In in Hin as [HR Hm].
  apply filter_In. split; [assumption|].
  rewrite !matches_app in Hm. rewrite app_nil_r.
  apply andb_prop in Hm as [_ Hm]. now apply andb_prop in Hm as [Hm _].
Qed.

(** C6. Filtering [R] by the two conditions [c1], [c2] is filtering [R] by
    [c1] and filtering the outcome by [c2] (the same records in the same
    order, or the same exception); and every record of a filtered result is
    in the result of filtering [R] by each single condition of the list. *)
Theorem and_composition (fieldTypes : FieldTypes) (R : list Item) :
  (forall c1 c2,
     filtered fieldTypes R [c1; c2] =
     (R1 <- filtered fieldTypes R [c1] ;; filtered fieldTypes R1 [c2])) /\
  (forall conditions out,
     filtered fieldTypes R conditions = ret out ->
     forall r c, In r out -> In c conditions ->
     exists only, filtered fieldTypes R [c] = ret only /\ In r only).
Proof.
  split.
  - intros c1 c2. apply (filtered_app fieldTypes R [c1] [c2]).
  - intros conditions out Hout r c Hr Hc.
    destruct (filtered_each _ _ _ _ Hout c Hc) as (only & Ho & Hi).
    exists only. auto.
Qed.

End Query.

(** ** Conditions without effect, and failures *)

Lemma split_from_not_nil (sep : string) (s : string) (skip : nat) :
  split_from sep skip s <> [].
Proof.
  revert skip. induction s as [|c s IH]; intros skip; cbn [split_from];
    [discriminate|].
  destruct skip; [|apply IH].
  destruct (String.prefix sep (String c s)); [discriminate|].
  destruct (split_from sep 0 s); discriminate.
Qed.

(** A string that includes the separator splits into two parts at least. *)
Lemma includes_split (s sep : string) :
  sep <> EmptyString -> includes s sep = true ->
  exists a b rest, split s sep = a :: b :: rest.
Proof.
  intros Hsep. unfold split. induction s as [|c s IH]; intros Hin.
  - cbn in Hin. destruct sep; [congruence|discriminate].
  - cbn [includes] in Hin. cbn [split_from].
    destruct (String.prefix sep (String c s)) eqn:Hp.
    + destruct (split_from sep (String.length sep - 1) s) as [|b rest] eqn:E.
      * now apply split_from_not_nil in E.
      * now exists EmptyString, b, rest.
    + cbn in Hin. destruct (IH Hin) as (a & b & rest & ->).
      now exists (String c a), b, rest.
Qed.

Section Dropped.
Context {rt : Runtime} {store : Store}.

Lemma unrecognized_cases (op : string) :
  recognized op = false ->
  String.eqb op "eq" = false /\ String.eqb op "ne" = false /\
  String.eqb op "cont" = false /\ String.eqb op "between" = false /\
  String.eqb op "gt" = false /\ String.eqb op "gte" = false /\
  String.eqb op "lt" = false /\ String.eqb op "lte" = false /\
  String.eqb op "isnull" = false /\ String.eqb op "notnull" = false.
Proof.
  unfold recognized, operators. cbn [existsb].
  intros H. repeat (apply orb_false_elim in H as [? H]). repeat split; assumption.
Qed.

(** Without a case of the [switch] the query is left as it is. *)
Lemma applyFilter_default (fieldTypes : FieldTypes) (q : Scan) (c : string) :
  (forall op, operatorOf c = Some op -> recognized op = false) ->
  applyFilter fieldTypes q c = ret q.
Proof.
  unfold operatorOf, applyFilter. intros H.
  destruct (nth_error (split c "||") 1) as [op|]; [|reflexivity].
  destruct (unrecognized_cases op (H op eq_refl))
    as (-> & -> & -> & -> & -> & -> & -> & -> & -> & ->).
  reflexivity.
Qed.

(** A condition that leaves every query as it is can be removed from the
    request. *)
Lemma processQuery_skip (fieldTypes : FieldTypes) (c : string) :
  (forall q, applyFilter fieldTypes q c = ret q) ->
  forall model fs gs sort page limit,
    processQuery model (fs ++ c :: gs) fieldTypes sort page limit =
    processQuery model (fs ++ gs) fieldTypes sort page limit.
Proof.
  intros Hc model fs gs sort page limit.
  rewrite !processQuery_unfold, clausesAll_skip; [reflexivity|].
  unfold clausesFor. now rewrite Hc.
Qed.

(** C8. A condition whose operator is not one of the recognized ones (or is
    absent) is dropped: applying it returns the scan query unchanged, without
    an exception, and the query answers as if the condition were not in the
    request. *)
Theorem unknown_operator_dropped (fieldTypes : FieldTypes) (c : string) :
  (forall op, operatorOf c = Some op -> recognized op = false) ->
  (forall q, applyFilter fieldTypes q c = ret q) /\
  (forall model fs gs sort page limit,
     processQuery model (fs ++ c :: gs) fieldTypes sort page limit =
     processQuery model (fs ++ gs) fieldTypes sort page limit).
Proof.
  intros H.
  assert (Hq : forall q, applyFilter fieldTypes q c = ret q)
    by (intros q; now apply applyFilter_default).
  split; [exact Hq|]. now apply processQuery_skip.
Qed.

(** C9. When the scan of the store fails, [processQuery] throws that very
    failure (unless building the filter expression threw before the scan was
    issued, which is thrown instead); and whenever [processQuery] returns a
    page, the scan succeeded and the page is computed from all of its
    records. *)
Theorem store_failure_propagates (model : Model) (filters : list string)
    (fieldTypes : FieldTypes) (sort : string) (page limit : Z) :
  (forall e, fault model = Some e ->
     match applyDynamoDBFilters (scan model) filters fieldTypes with
     | inl early => processQuery model filters fieldTypes sort page limit = throw early
     | inr scanQuery =>
         exec scanQuery = throw e /\
         processQuery model filters fieldTypes sort page limit = throw e
     end) /\
  (forall r, processQuery model filters fieldTypes sort page limit = ret r ->
     exists scanQuery allData,
       applyDynamoDBFilters (scan model) filters fieldTypes = ret scanQuery /\
       exec scanQuery = ret allData /\
       allData = filter (matches (clauses scanQuery)) (items model) /\
       r = applyPagination (applySorting allData sort) page limit).
Proof.
  rewrite processQuery_unfold, applyDynamoDBFilters_clauses. split.
  - intros e He.
    destruct (clausesAll fieldTypes filters) as [early|cs]; cbn; [reflexivity|].
    unfold exec. cbn. now rewrite He.
  - intros r.
    destruct (clausesAll fieldTypes filters) as [early|cs]; cbn; [discriminate|].
    unfold exec. cbn.
    destruct (fault model) eqn:Hf; [discriminate|].
    intros E. injection E as <-.
    exists (extend (scan model) cs), (filter (matches cs) (items model)).
    repeat split. unfold exec. cbn. now rewrite Hf.
Qed.

(** C10. A [between] condition whose value has no comma is dropped: the scan
    query is returned unchanged without an exception and the request answers
    as without it. With a comma, the value splits into two parts at least,
    every part is URL-decoded, a failing decoding is thrown, and otherwise
    the clause attached has the decoded first and second part as its
    endpoints, as strings, whatever the field types say. *)
Theorem between_endpoints (fieldTypes : FieldTypes) (c v : string) :
  operatorOf c = Some "between" -> valueOf c = Some v ->
  (includes v "," = false ->
     (forall q, applyFilter fieldTypes q c = ret q) /\
     (forall model fs gs sort page limit,
        processQuery model (fs ++ c :: gs) fieldTypes sort page limit =
        processQuery model (fs ++ gs) fieldTypes sort page limit)) /\
  (includes v "," = true ->
     exists a b rest,
       split v "," = a :: b :: rest /\
       forall q,
         match mapM decodeURIComponent (a :: b :: rest) with
         | inl e => applyFilter fieldTypes q c = throw e
         | inr _ =>
             exists a' b',
               decodeURIComponent a = ret a' /\
               decodeURIComponent b = ret b' /\
               applyFilter fieldTypes q c =
                 ret (where_ q (fieldOf c) (CBetween (VString a') (VString b')))
         end).
Proof.
  intros Hop Hval.
  assert (Hq : forall q,
             applyFilter fieldTypes q c =
             if includes v "," then
               ends <- mapM decodeURIComponent (split v ",") ;;
               ret (where_ q (fieldOf c)
                      (CBetween (ofOpt (nth_error ends 0)) (ofOpt (nth_error ends 1))))
             else ret q).
  { intros q. unfold operatorOf, valueOf, fieldOf in *. unfold applyFilter.
    rewrite Hop, Hval. reflexivity. }
  split.
  - intros Hno.
    assert (Hskip : forall q, applyFilter fieldTypes q c = ret q)
      by (intros q; now rewrite Hq, Hno).
    split; [exact Hskip|]. now apply processQuery_skip.
  - intros Hyes.
    destruct (includes_split v "," ltac:(discriminate) Hyes) as (a & b & rest & Hs).
    exists a, b, rest. split; [exact Hs|].
    intros q. rewrite Hq, Hyes, Hs. cbn [mapM].
    destruct (decodeURIComponent a) as [e|a']; cbn; [reflexivity|].
    destruct (decodeURIComponent b) as [e|b']; cbn; [reflexivity|].
    destruct (mapM decodeURIComponent rest) as [e|ds]; cbn; [reflexivity|].
    now exists a', b'.
Qed.

End Dropped.

(** ** Sorting *)

Section SortFacts.
Context {A : Type} (comparefn : A -> A -> jsnum).

Lemma insert_perm (x : A) (l : list A) :
  Permutation (x :: l) (Js.insert comparefn x l).
Proof.
  induction l as [|y l IH]; cbn; [reflexivity|].
  destruct (negative (comparefn y x)); [|reflexivity].
  rewrite perm_swap. now apply perm_skip.
Qed.

Lemma sort_perm (l : list A) : Permutation l (Js.sort comparefn l).
Proof.
  induction l as [|x l IH]; cbn; [reflexivity|].
  rewrite <- insert_perm. now apply perm_skip.
Qed.

(** A settled sequence is left as it is. *)
Lemma sort_settled (l : list A) : settled comparefn l -> Js.sort comparefn l = l.
Proof.
  induction l as [|x l IH]; cbn [settled]; [reflexivity|].
  intros [Hx Hl]. unfold Js.sort in *. cbn [fold_right]. rewrite (IH Hl).
  destruct l as [|y l]; [reflexivity|].
  cbn [Js.insert]. now rewrite Hx.
Qed.

Hypothesis before_asym :
  forall x y, negative (comparefn x y) = true -> negative (comparefn y x) = false.

Lemma insert_settled (x : A) (l : list A) :
  settled comparefn l -> settled comparefn (Js.insert comparefn x l).
Proof.
  induction l as [|y l IH]; cbn [settled Js.insert]; [auto|].
  intros [Hy Hl].
  destruct (negative (comparefn y x)) eqn:Hyx.
  - cbn [settled]. split; [|now apply IH].
    destruct l as [|z l]; cbn [Js.insert].
    + now apply before_asym.
    + destruct (negative (comparefn z x)); [exact Hy|now apply before_asym].
  - cbn [settled]. auto.
Qed.

Lemma sorted_settled (l : list A) : settled comparefn (Js.sort comparefn l).
Proof.
  induction l as [|x l IH]; cbn; [exact I|]. now apply insert_settled.
Qed.

Lemma sort_idempotent (l : list A) :
  Js.sort comparefn (Js.sort comparefn l) = Js.sort comparefn l.
Proof. apply sort_settled, sorted_settled. Qed.

End SortFacts.

Section Sinking.
Context {A : Type} (comparefn : A -> A -> jsnum) (sunken : A -> bool).

Hypothesis sunken_last : forall x y, sunken x = true -> negative (comparefn x y) = false.
Hypothesis sunken_after :
  forall x y, sunken x = false -> sunken y = true -> negative (comparefn x y) = true.

Lemma insert_sunk (x : A) (l : list A) : sunk sunken l -> sunk sunken (Js.insert comparefn x l).
Proof.
  induction l as [|y l IH]; cbn [sunk Js.insert].
  - intros _. split; [constructor|exact I].
  - intros [Hy Hl].
    destruct (negative (comparefn y x)) eqn:Hyx.
    + cbn [sunk]. split; [|now apply IH].
      intros Sy. rewrite (sunken_last y x Sy) in Hyx. discriminate.
    + cbn [sunk]. split; [|split; assumption].
      intros Sx. destruct (sunken y) eqn:Sy.
      * constructor; [assumption|now apply Hy].
      * rewrite (sunken_after y x Sy Sx) in Hyx. discriminate.
Qed.

Lemma sort_sunk (l : list A) : sunk sunken (Js.sort comparefn l).
Proof.
  induction l as [|x l IH]; cbn; [exact I|]. now apply insert_sunk.
Qed.

Lemma sunk_order (l : list A) :
  sunk sunken l ->
  forall i j a b,
    nth_error l i = Some a -> nth_error l j = Some b ->
    sunken a = true -> sunken b = false -> (j < i)%nat.
Proof.
  induction l as [|x l IH]; intros Hs i j a b Hi Hj Sa Sb.
  - destruct i; discriminate.
  - destruct Hs as [Hx Hl]. destruct i as [|i], j as [|j]; cbn in Hi, Hj.
    + congruence.
    + injection Hi as ->. specialize (Hx Sa).
      apply nth_error_In in Hj. rewrite Forall_forall in Hx.
      rewrite (Hx b Hj) in Sb. discriminate.
    + lia.
    + apply -> Nat.succ_lt_mono. eapply IH; eauto.
Qed.

End Sinking.

Section Sorting.
Context {rt : Runtime}.

Lemma sub_asym (x y : jsnum) :
  negative (sub x y) = true -> negative (sub y x) = false.
Proof.
  destruct x, y; cbn; try congruence.
  rewrite Z.ltb_lt, Z.ltb_ge. lia.
Qed.

Lemma compareBy_nullish (sortField : string) (isDesc : bool) (a b : Item) :
  nullish (get a sortField) = true ->
  compareBy sortField isDesc a b = JInt 1.
Proof. unfold compareBy. now intros ->. Qed.

Lemma compareBy_present (sortField : string) (isDesc : bool) (a b : Item) :
  nullish (get a sortField) = false -> nullish (get b sortField) = true ->
  compareBy sortField isDesc a b = JInt (-1).
Proof. unfold compareBy. now intros -> ->. Qed.

Lemma collation_asym `{!Collation rt} (x y : string) :
  negative (JInt (localeCompare x y)) = true ->
  negative (JInt (localeCompare y x)) = false.
Proof.
  cbn. rewrite Z.ltb_lt, Z.ltb_ge. intros H.
  apply localeCompare_asym in H. lia.
Qed.

(** The comparator never answers "negative" both ways. *)
Lemma compareBy_asym `{!Collation rt} (sortField : string) (isDesc : bool)
    (a b : Item) :
  negative (compareBy sortField isDesc a b) = true ->
  negative (compareBy sortField isDesc b a) = false.
Proof.
  unfold compareBy.
  destruct (get a sortField) as [| |x|x|x|x], (get b sortField) as [| |y|y|y|y];
    cbn [nullish]; try (cbn; congruence);
    destruct isDesc; try apply collation_asym; apply sub_asym.
Qed.

(** C4. Sorting the outcome of [applySorting] again with the same sort
    string changes nothing, whatever the records hold in the sort field,
    null and missing values included. *)
Theorem applySorting_idempotent `{!Collation rt} (records : list Item)
    (sort : string) :
  applySorting (applySorting records sort) sort = applySorting records sort.
Proof.
  unfold applySorting. destruct (String.eqb sort ""); [reflexivity|].
  apply sort_idempotent. intros x y. apply compareBy_asym.
Qed.

(** C5. For a sort string that is not empty, [applySorting] returns the
    records it was given, reordered so that every record whose sort field is
    present comes before every record whose sort field is null or missing;
    the direction written in the sort string plays no part in that. *)
Theorem nulls_sink (records : list Item) (sort : string) :
  sort <> "" ->
  let sortField := sortFieldOf sort in
  let out := applySorting records sort in
  Permutation records out /\
  forall i j a b,
    nth_error out i = Some a -> nth_error out j = Some b ->
    nullish (get a sortField) = true -> nullish (get b sortField) = false ->
    (j < i)%nat.
Proof.
  intros Hs sortField out. subst out. unfold applySorting.
  destruct (String.eqb_spec sort ""); [contradiction|].
  split; [apply sort_perm|].
  apply sunk_order with (sunken := fun r => nullish (get r sortField)).
  apply sort_sunk.
  - intros x y Hx. now rewrite compareBy_nullish.
  - intros x y Hx Hy. now rewrite compareBy_present.
Qed.

(** The sort string ["<field>,<direction>"] names [field], as long as the
    field has no comma of its own. *)
Lemma sortFieldOf_encoded (field direction : string) :
  includes field "," = false ->
  sortFieldOf (field ++ "," ++ direction) = field.
Proof.
  unfold sortFieldOf, split. intros H.
  enough (E : exists rest,
             split_from "," 0 (field ++ "," ++ direction) = field :: rest)
    by (destruct E as [rest ->]; reflexivity).
  induction field as [|c field IH].
  - destruct direction; cbn; eauto.
  - cbn [includes] in H. apply orb_false_elim in H as [Hc Hf].
    destruct (IH Hf) as [rest E].
    cbn [append] in E |- *. cbn [split_from].
    replace (String.prefix "," (String c (field ++ String "," direction)))
      with false.
    + rewrite E. eauto.
    + cbn [String.prefix] in Hc |- *.
      destruct (ascii_dec "," c); [|reflexivity].
      destruct field; discriminate.
Qed.

End Sorting.

(** * The service on the reference host *)

Lemma collate_asym (a b : string) :
  Ref.collate a b < 0 -> ~ Ref.collate b a < 0.
Proof.
  unfold Ref.collate. rewrite (String.compare_antisym b a).
  destruct (String.compare a b); cbn; lia.
Qed.

Lemma ref_collation : Collation Ref.runtime.
Proof. constructor. exact collate_asym. Qed.

Section Scenarios.
Local Existing Instance Ref.runtime.
Local Existing Instance Ref.store.

(** Scenario 1 of the spec: [status||eq||1], [id,DESC], page 1 of 10. *)
Example scenario_status_desc :
  processQuery (healthy Ref.orders) ["status||eq||1"] Ref.orderTypes "id,DESC" 1 10 =
  ret {| data := [ [("id", Ref.num 3); ("status", Ref.num 1)];
                   [("id", Ref.num 1); ("status", Ref.num 1)] ];
         count := 2; total := 2; page := 1; pageCount := JInt 1 |}.
Proof. reflexivity. Qed.

(** Scenario 2 of the spec: the same request with a limit of 1. *)
Example scenario_limit_one :
  processQuery (healthy Ref.orders) ["status||eq||1"] Ref.orderTypes "id,DESC" 1 1 =
  ret {| data := [ [("id", Ref.num 3); ("status", Ref.num 1)] ];
         count := 1; total := 2; page := 1; pageCount := JInt 2 |}.
Proof. reflexivity. Qed.

(** A [between] value with a comma: both endpoints are decoded and passed
    as strings although [createdAt] is declared a [Date]. *)
Example between_decoded (q : Scan) :
  applyFilter Ref.orderTypes q "createdAt||between||2024-01-01,2024%2D01-31" =
  ret (where_ q "createdAt"
         (CBetween (VString "2024-01-01") (VString "2024-01-31"))).
Proof. reflexivity. Qed.

(** A malformed escape in a [between] endpoint is thrown. *)
Example between_malformed (q : Scan) :
  applyFilter Ref.orderTypes q "createdAt||between||2024-01-01,%" =
  throw (URIError "URI malformed").
Proof. reflexivity. Qed.

(** C3. The [switch] of [applyDynamoDBFilters] has no case for [starts] or
    [ends]: on the two people John and Sarah the condition
    [name||starts||Jo] retains Sarah as well, and [name||ends||hn] does too,
    while [name||cont||oh], which has a case, retains John only. *)
Theorem starts_ends_not_applied :
  recognized "starts" = false /\
  recognized "ends" = false /\
  processQuery (healthy Ref.people) ["name||starts||Jo"] Ref.orderTypes "name,ASC" 1 10 =
    ret {| data := [ [("name", VString "John")]; [("name", VString "Sarah")] ];
           count := 2; total := 2; page := 1; pageCount := JInt 1 |} /\
  processQuery (healthy Ref.people) ["name||ends||hn"] Ref.orderTypes "name,ASC" 1 10 =
    ret {| data := [ [("name", VString "John")]; [("name", VString "Sarah")] ];
           count := 2; total := 2; page := 1; pageCount := JInt 1 |} /\
  processQuery (healthy Ref.people) ["name||cont||oh"] Ref.orderTypes "name,ASC" 1 10 =
    ret {| data := [ [("name", VString "John")] ];
           count := 1; total := 1; page := 1; pageCount := JInt 1 |}.
Proof. repeat split. Qed.

Lemma applyPagination_invariants_witness :
  1 <= 2 /\ 1 <= 2 /\
  let r := applyPagination [10; 20; 30] 2 2 in
  total r = Z.of_nat (List.length [10; 20; 30]) /\
  count r = Z.of_nat (List.length (data r)) /\
  count r <= 2 /\
  (exists k, pageCount r = JInt k /\ (k - 1) * 2 < total r <= k * 2) /\
  (pageCount r = JInt 0 <-> total r = 0).
Proof.
  split; [lia|]. split; [lia|].
  apply (applyPagination_invariants [10; 20; 30] 2 2); lia.
Defined.

Lemma applyPagination_offset_witness :
  1 <= 2 /\ 1 <= 2 /\
  data (applyPagination [10; 20; 30] 2 2) = [30] /\
  data (applyPagination [10; 20; 30] 3 2) = [].
Proof.
  split; [lia|]. split; [lia|]. split.
  - exact (proj1 (applyPagination_offset [10; 20; 30] 2 2 ltac:(lia) ltac:(lia))).
  - apply (proj2 (applyPagination_offset [10; 20; 30] 3 2 ltac:(lia) ltac:(lia))).
    cbn. lia.
Defined.

Lemma applySorting_idempotent_witness :
  Collation Ref.runtime /\
  applySorting (applySorting Ref.sparse "id,DESC") "id,DESC" =
  applySorting Ref.sparse "id,DESC".
Proof.
  split; [exact ref_collation|].
  exact (@applySorting_idempotent Ref.runtime ref_collation Ref.sparse "id,DESC").
Defined.

Lemma nulls_sink_witness :
  "id,DESC" <> "" /\
  let out := applySorting Ref.sparse "id,DESC" in
  Permutation Ref.sparse out /\
  forall i j a b,
    nth_error out i = Some a -> nth_error out j = Some b ->
    nullish (get a (sortFieldOf "id,DESC")) = true ->
    nullish (get b (sortFieldOf "id,DESC")) = false ->
    (j < i)%nat.
Proof.
  split; [discriminate|].
  apply (nulls_sink Ref.sparse "id,DESC"). discriminate.
Defined.

Lemma and_composition_witness :
  filtered Ref.orderTypes Ref.orders ["status||eq||1"; "status||gte||1"] =
    (R1 <- filtered Ref.orderTypes Ref.orders ["status||eq||1"] ;;
     filtered Ref.orderTypes R1 ["status||gte||1"]) /\
  exists only,
    filtered Ref.orderTypes Ref.orders ["status||gte||1"] = ret only /\
    In [("id", Ref.num 3); ("status", Ref.num 1)] only.
Proof.
  destruct (and_composition Ref.orderTypes Ref.orders) as [Hand Heach].
  split; [apply Hand|].
  apply (Heach ["status||eq||1"; "status||gte||1"]
               [ [("id", Ref.num 1); ("status", Ref.num 1)];
                 [("id", Ref.num 3); ("status", Ref.num 1)] ]);
    [reflexivity | cbn; auto | cbn; auto].
Defined.

Lemma unknown_operator_dropped_witness :
  (forall op, operatorOf "status||foo||1" = Some op -> recognized op = false) /\
  (forall q, applyFilter Ref.orderTypes q "status||foo||1" = ret q) /\
  (forall model fs gs sort page limit,
     processQuery model (fs ++ "status||foo||1" :: gs) Ref.orderTypes sort page limit =
     processQuery model (fs ++ gs) Ref.orderTypes sort page limit).
Proof.
  assert (H : forall op, operatorOf "status||foo||1" = Some op -> recognized op = false).
  { intros op E. cbv in E. injection E as <-. reflexivity. }
  split; [exact H|].
  exact (unknown_operator_dropped Ref.orderTypes "status||foo||1" H).
Defined.

Lemma store_failure_propagates_witness :
  fault (failing Ref.orders (StoreFailure "throttled")) = Some (StoreFailure "throttled") /\
  processQuery (failing Ref.orders (StoreFailure "throttled"))
    ["status||eq||1"] Ref.orderTypes "id,DESC" 1 10 =
  throw (StoreFailure "throttled").
Proof.
  split; [reflexivity|].
  exact (proj2 (proj1 (store_failure_propagates
                         (failing Ref.orders (StoreFailure "throttled"))
                         ["status||eq||1"] Ref.orderTypes "id,DESC" 1 10)
                 (StoreFailure "throttled") eq_refl)).
Defined.

Lemma between_endpoints_witness :
  operatorOf "createdAt||between||2024-01-01" = Some "between" /\
  valueOf "createdAt||between||2024-01-01" = Some "2024-01-01" /\
  includes "2024-01-01" "," = false /\
  (forall q, applyFilter Ref.orderTypes q "createdAt||between||2024-01-01" = ret q).
Proof.
  split; [reflexivity|]. split; [reflexivity|]. split; [reflexivity|].
  exact (proj1 (proj1 (between_endpoints Ref.orderTypes
                         "createdAt||between||2024-01-01" "2024-01-01"
                         eq_refl eq_refl) eq_refl)).
Defined.

End Scenarios.

(** * Further properties of the pipeline *)

(** ** Pages *)

Section Pages.
Context {T : Type}.

Lemma firstn_plus (a b : nat) (l : list T) :
  firstn (a + b) l = firstn a l ++ firstn b (skipn a l).
Proof.
  revert l. induction a as [|a IH]; intros l; [reflexivity|].
  destruct l as [|x l]; cbn.
  - now rewrite firstn_nil.
  - now rewrite IH.
Qed.

(** The page [p], counted from 1, of a list cut every [width] records. *)
Lemma page_chunk (l : list T) (p : nat) (limit : Z) :
  1 <= limit -> (1 <= p)%nat ->
  data (applyPagination l (Z.of_nat p) limit) =
  firstn (Z.to_nat limit) (skipn ((p - 1) * Z.to_nat limit) l).
Proof.
  intros Hl Hp. unfold applyPagination. cbn [data].
  rewrite slice_window by nia. do 2 f_equal. nia.
Qed.

Lemma chunks_prefix (l : list T) (limit : Z) (n : nat) :
  1 <= limit ->
  List.concat (map (fun p => data (applyPagination l (Z.of_nat p) limit)) (seq 1 n)) =
  firstn (n * Z.to_nat limit) l.
Proof.
  intros Hl. induction n as [|n IH]; [reflexivity|].
  rewrite seq_S, map_app, concat_app, IH. cbn [map List.concat Nat.add].
  rewrite app_nil_r, page_chunk by lia.
  replace (S n - 1)%nat with n by lia.
  replace (S n * Z.to_nat limit)%nat with (n * Z.to_nat limit + Z.to_nat limit)%nat by lia.
  now rewrite firstn_plus.
Qed.

Lemma sum_counts (pages : list (PageResult T)) :
  (forall r, In r pages -> count r = Z.of_nat (List.length (data r))) ->
  fold_right Z.add 0 (map count pages) =
  Z.of_nat (List.length (List.concat (map data pages))).
Proof.
  induction pages as [|r pages IH]; intros H; [reflexivity|].
  cbn [map fold_right List.concat]. rewrite length_app, Nat2Z.inj_add.
  rewrite IH by (intros; apply H; now right).
  rewrite (H r) by now left. reflexivity.
Qed.

(** X1. With [limit >= 1] the pages 1 to [pageCount] partition the input:
    their data, one after the other, is the input itself, and their counts
    add up to [total]. *)
Theorem pages_partition (records : list T) (limit : Z) :
  1 <= limit ->
  exists k,
    pageCount (applyPagination records 1 limit) = JInt (Z.of_nat k) /\
    let pages :=
      map (fun p => applyPagination records (Z.of_nat p) limit) (seq 1 k) in
    List.concat (map data pages) = records /\
    fold_right Z.add 0 (map count pages) = Z.of_nat (List.length records).
Proof.
  intros Hl.
  destruct (ceil_div_pos (Z.of_nat (List.length records)) limit ltac:(lia))
    as (k & Hk & Hlo & Hhi).
  assert (0 <= k) by nia.
  exists (Z.to_nat k). cbn [applyPagination pageCount].
  rewrite Z2Nat.id by assumption. split; [exact Hk|].
  cbv zeta.
  assert (Hcat : List.concat (map data
                   (map (fun p => applyPagination records (Z.of_nat p) limit)
                        (seq 1 (Z.to_nat k)))) = records).
  { rewrite map_map, chunks_prefix by assumption.
    apply firstn_all2. nia. }
  split; [exact Hcat|].
  rewrite sum_counts, Hcat; [reflexivity|].
  intros r Hr. apply in_map_iff in Hr as (p & <- & _). reflexivity.
Qed.

(** X2. For [page >= 1] and [limit >= 1], [count] is [limit] on every page
    that fits, what is left on the last one, and 0 beyond:
    [max 0 (min limit (total - (page - 1) * limit))]. *)
Theorem page_count_formula (records : list T) (page limit : Z) :
  1 <= page -> 1 <= limit ->
  let r := applyPagination records page limit in
  count r = Z.max 0 (Z.min limit (total r - (page - 1) * limit)).
Proof.
  intros Hp Hl r. subst r. unfold applyPagination. cbn [count total].
  rewrite slice_window by nia.
  rewrite length_firstn, length_skipn. nia.
Qed.

(** X3. A limit of 0 is not refused: whatever the page, the data is empty
    and [pageCount] is NaN for an empty input and [Infinity] otherwise. *)
Theorem limit_zero (records : list T) (page : Z) :
  let r := applyPagination records page 0 in
  data r = [] /\ count r = 0 /\
  pageCount r = match records with [] => JNaN | _ :: _ => JPosInf end.
Proof.
  cbv zeta. unfold applyPagination. cbn [data count pageCount].
  replace ((page - 1) * 0) with 0 by lia.
  assert (E : slice records 0 (0 + 0) = []) by now rewrite slice_window.
  rewrite E. repeat split. destruct records; reflexivity.
Qed.

(** X4. A page number below 1 is not refused either: page 0 is empty, and
    a negative page reads from the end of the list, the page [-n] being the
    [limit] records that end [n * limit] records before the end (when there
    are that many). *)
Theorem page_below_one (records : list T) (limit : Z) :
  1 <= limit ->
  data (applyPagination records 0 limit) = [] /\
  forall n, 1 <= n ->
    (n + 1) * limit <= Z.of_nat (List.length records) ->
    data (applyPagination records (- n) limit) =
    firstn (Z.to_nat limit)
      (skipn (Z.to_nat (Z.of_nat (List.length records) - (n + 1) * limit)) records).
Proof.
  intros Hl. unfold applyPagination. cbn [data]. split.
  - unfold slice.
    destruct (Z.ltb_spec ((0 - 1) * limit) 0) as [_|]; [|lia].
    destruct (Z.ltb_spec ((0 - 1) * limit + limit) 0) as [|_]; [lia|].
    replace (Z.to_nat _) with 0%nat by lia. reflexivity.
  - intros n Hn Hlen. unfold slice.
    destruct (Z.ltb_spec ((- n - 1) * limit) 0) as [_|]; [|nia].
    destruct (Z.ltb_spec ((- n - 1) * limit + limit) 0) as [_|]; [|nia].
    rewrite !Z.max_l by nia. f_equal; f_equal; nia.
Qed.

End Pages.

(** ** Order of the sorted records *)

Section Stable.
Context {A : Type} (comparefn : A -> A -> jsnum) (p : A -> bool).

Hypothesis ties :
  forall x y, p x = true -> p y = true -> negative (comparefn y x) = false.



End Stable.

Section Ordered.
Context {A : Type} (comparefn : A -> A -> jsnum) (D : A -> Prop).

Hypothesis asym :
  forall x y, D x -> D y ->
  negative (comparefn y x) = true -> negative (comparefn x y) = false.
Hypothesis trans :
  forall x y z, D x -> D y -> D z ->
  notAfter comparefn x y -> notAfter comparefn y z -> notAfter comparefn x z.

Lemma insert_Forall (P : A -> Prop) (x : A) (l : list A) :
  P x -> Forall P l -> Forall P (Js.insert comparefn x l).
Proof.
  intros Px. induction 1 as [|y l Py Hl IH]; cbn [Js.insert].
  - auto.
  - destruct (negative (comparefn y x)); auto.
Qed.

Lemma insert_sorted (x : A) (l : list A) :
  D x -> Forall D l -> StronglySorted (notAfter comparefn) l ->
  StronglySorted (notAfter comparefn) (Js.insert comparefn x l).
Proof.
  intros Dx Hd Hs. induction Hs as [|y l Hs IH Hy]; cbn [Js.insert].
  - repeat constructor.
  - inversion Hd as [|? ? Dy Dl]; subst.
    destruct (negative (comparefn y x)) eqn:Hyx.
    + constructor; [now apply IH|].
      apply insert_Forall; [|assumption].
      unfold notAfter. now apply asym.
    + constructor; [now constructor|].
      constructor; [exact Hyx|].
      rewrite Forall_forall in Hy, Dl |- *. intros z Hz.
      apply (trans x y z); auto.
Qed.

Lemma sort_sorted (l : list A) :
  Forall D l -> StronglySorted (notAfter comparefn) (Js.sort comparefn l).
Proof.
  induction 1 as [|x l Dx Dl IH]; [constructor|].
  unfold Js.sort in *. cbn [fold_right].
  apply insert_sorted; [assumption| |assumption].
  clear IH Dx. induction Dl; cbn [fold_right]; [constructor|].
  now apply insert_Forall.
Qed.

End Ordered.

Lemma StronglySorted_nth {A} (R : A -> A -> Prop) (l : list A) :
  StronglySorted R l ->
  forall i j a b, (i < j)%nat ->
    nth_error l i = Some a -> nth_error l j = Some b -> R a b.
Proof.
  induction 1 as [|x l Hs IH Hx]; intros i j a b Hij Hi Hj.
  - destruct i; discriminate.
  - destruct j as [|j]; [lia|]. cbn in Hj. destruct i as [|i]; cbn in Hi.
    + injection Hi as ->. rewrite Forall_forall in Hx.
      apply Hx. eapply nth_error_In; eauto.
    + apply (IH i j a b); [lia|assumption|assumption].
Qed.

Section SortedOrder.
Context {rt : Runtime}.



Lemma compareBy_integers (sortField : string) (isDesc : bool) (a b : Item)
    (x y : Z) :
  get a sortField = VNumber (JInt x) -> get b sortField = VNumber (JInt y) ->
  compareBy sortField isDesc a b = JInt (if isDesc then y - x else x - y).
Proof. unfold compareBy. intros -> ->. destruct isDesc; reflexivity. Qed.

(** X6. When the sort field of every record is an integer (or null or
    missing), the records that have it come out in order: never decreasing,
    and never increasing when the direction is [DESC]. *)
Theorem applySorting_integers_ordered (records : list Item) (sort : string) :
  sort <> "" ->
  Forall (integerOrNull (sortFieldOf sort)) records ->
  forall i j a b x y,
    (i < j)%nat ->
    nth_error (applySorting records sort) i = Some a ->
    nth_error (applySorting records sort) j = Some b ->
    get a (sortFieldOf sort) = VNumber (JInt x) ->
    get b (sortFieldOf sort) = VNumber (JInt y) ->
    if isDescOf sort then y <= x else x <= y.
Proof.
  intros Hs Hd i j a b x y Hij Hi Hj Ha Hb.
  unfold applySorting in Hi, Hj.
  destruct (String.eqb_spec sort ""); [contradiction|].
  set (f := sortFieldOf sort) in *. set (d := isDescOf sort) in *.
  pose (key := fun r : Item =>
                 match get r f with
                 | VNumber (JInt n) => Some n
                 | _ => None
                 end).
  pose (before := fun kw ku : option Z =>
                    match kw, ku with
                    | None, _ => false
                    | Some _, None => true
                    | Some q, Some p => if d then p - q <? 0 else q - p <? 0
                    end).
  assert (Hkey : forall u w,
             integerOrNull f u -> integerOrNull f w ->
             negative (compareBy f d w u) = before (key w) (key u)).
  { intros u w [Nu|(p & Eu)] [Nw|(q & Ew)]; unfold key, before.
    - rewrite compareBy_nullish by assumption.
      destruct (get w f) as [| |?|[]|?|?]; try discriminate; reflexivity.
    - rewrite compareBy_present by (rewrite ?Ew; trivial).
      rewrite Ew. destruct (get u f) as [| |?|[]|?|?]; try discriminate; reflexivity.
    - rewrite compareBy_nullish by assumption.
      destruct (get w f) as [| |?|[]|?|?]; try discriminate; reflexivity.
    - rewrite (compareBy_integers f d w u q p Ew Eu), Eu, Ew.
      destruct d; reflexivity. }
  assert (Hsorted : StronglySorted (notAfter (compareBy f d))
                      (Js.sort (compareBy f d) records)).
  { apply (sort_sorted (compareBy f d) (integerOrNull f)); [| |assumption].
    - intros u w Du Dw. rewrite (Hkey u w Du Dw), (Hkey w u Dw Du).
      unfold before. destruct (key u), (key w), d; try congruence;
        rewrite Z.ltb_lt, Z.ltb_ge; lia.
    - intros u w z Du Dw Dz. unfold notAfter.
      rewrite (Hkey u w Du Dw), (Hkey w z Dw Dz), (Hkey u z Du Dz).
      unfold before. destruct (key u), (key w), (key z), d; try congruence;
        rewrite !Z.ltb_ge; lia. }
  pose proof (StronglySorted_nth _ _ Hsorted i j a b Hij Hi Hj) as Hab.
  unfold notAfter in Hab.
  rewrite (compareBy_integers f d b a y x Hb Ha) in Hab.
  cbn in Hab. apply Z.ltb_ge in Hab. destruct d; lia.
Qed.

End SortedOrder.

(** ** Conversion and the filter expression *)

Section Conversion.
Context {rt : Runtime}.

(** X7. [convertFilterValue] throws in one case only, a [Boolean] field
    with no value to convert, and then a [TypeError]; and for a field that is
    not declared, or declared with a type other than [Number], [Date] and
    [Boolean], the raw string comes back as it is. *)
Theorem convertFilterValue_edges (field : string) (fieldTypes : FieldTypes) :
  (forall value,
     (exists e, convertFilterValue field value fieldTypes = throw e) <->
     lookup fieldTypes field = Some "Boolean" /\ value = None) /\
  (forall value e,
     convertFilterValue field value fieldTypes = throw e ->
     exists msg, e = TypeError msg) /\
  (forall v,
     (forall t, lookup fieldTypes field = Some t ->
                t <> "Number" /\ t <> "Date" /\ t <> "Boolean") ->
     convertFilterValue field (Some v) fieldTypes = ret (VString v)).
Proof.
  unfold convertFilterValue. split; [|split].
  - intros value. destruct (lookup fieldTypes field) as [t|].
    + destruct (String.eqb_spec t "Number") as [->|Hn].
      { split; [intros [e E]; discriminate|]. intros (E & _). discriminate. }
      destruct (String.eqb_spec t "Date") as [->|Hd].
      { split; [intros [e E]; discriminate|]. intros (E & _). discriminate. }
      destruct (String.eqb_spec t "Boolean") as [->|Hb].
      * destruct value as [v|].
        { split; [intros [e E]; discriminate|]. intros (_ & E). discriminate. }
        split; [auto|]. intros _. eexists. reflexivity.
      * split; [intros [e E]; discriminate|]. intros (E & _). congruence.
    + split; [intros [e E]; discriminate|]. intros (E & _). discriminate.
  - intros value e.
    destruct (lookup fieldTypes field) as [t|]; [|discriminate].
    destruct (String.eqb t "Number"); [discriminate|].
    destruct (String.eqb t "Date"); [discriminate|].
    destruct (String.eqb t "Boolean"); [|discriminate].
    destruct value; [discriminate|].
    intros E. injection E as <-. eauto.
  - intros v H. destruct (lookup fieldTypes field) as [t|]; [|reflexivity].
    destruct (H t eq_refl) as (Hn & Hd & Hb).
    apply String.eqb_neq in Hn, Hd, Hb. now rewrite Hn, Hd, Hb.
Qed.

End Conversion.

Section FilterFacts.
Context {rt : Runtime} {store : Store}.

(** One filter string throws, adds nothing, or adds one clause on its own
    field. *)
Lemma clausesFor_cases (fieldTypes : FieldTypes) (c : string) :
  (exists e, clausesFor fieldTypes c = throw e) \/
  clausesFor fieldTypes c = ret [] \/
  (exists cond, clausesFor fieldTypes c = ret [(fieldOf c, cond)]).
Proof.
  unfold clausesFor, applyFilter, fieldOf. cbv beta zeta.
  set (field := hd EmptyString (split c "||")).
  set (value := nth_error (split c "||") 2).
  destruct (nth_error (split c "||") 1) as [op|]; [|now right; left].
  assert (Hconv : forall k : Value -> Condition,
             (exists e,
                (d <- (v <- convertFilterValue field value fieldTypes ;;
                       ret (where_ blank field (k v))) ;;
                 ret (clauses d)) = throw e) \/
             (d <- (v <- convertFilterValue field value fieldTypes ;;
                    ret (where_ blank field (k v))) ;;
              ret (clauses d)) = ret [] \/
             (exists cond,
                (d <- (v <- convertFilterValue field value fieldTypes ;;
                       ret (where_ blank field (k v))) ;;
                 ret (clauses d)) = ret [(field, cond)])).
  { intros k. destruct (convertFilterValue field value fieldTypes) as [e|v]; cbn.
    - left. now exists e.
    - right. right. now exists (k v). }
  destruct (String.eqb op "eq"); [apply Hconv|].
  destruct (String.eqb op "ne"); [apply Hconv|].
  destruct (String.eqb op "cont"); [right; right; eexists; reflexivity|].
  destruct (String.eqb op "between").
  { destruct value as [v|]; [|left; eexists; reflexivity].
    destruct (includes v ","); [|now right; left].
    destruct (mapM decodeURIComponent (split v ",")) as [e|ends]; cbn.
    - left. now exists e.
    - right. right. eexists. reflexivity. }
  destruct (String.eqb op "gt"); [apply Hconv|].
  destruct (String.eqb op "gte"); [apply Hconv|].
  destruct (String.eqb op "lt"); [apply Hconv|].
  destruct (String.eqb op "lte"); [apply Hconv|].
  destruct (String.eqb op "isnull"); [right; right; eexists; reflexivity|].
  destruct (String.eqb op "notnull"); [right; right; eexists; reflexivity|].
  now right; left.
Qed.

Lemma clausesAll_bound (fieldTypes : FieldTypes) (filters : list string)
    (cs : list Clause) :
  clausesAll fieldTypes filters = ret cs ->
  (List.length cs <= List.length filters)%nat /\
  forall cl, In cl cs -> exists c, In c filters /\ fst cl = fieldOf c.
Proof.
  revert cs. induction filters as [|c filters IH]; intros cs.
  - cbn. intros E. injection E as <-. split; [cbn; lia|intros cl []].
  - rewrite clausesAll_cons.
    destruct (clausesFor_cases fieldTypes c) as [[e E]|[E|[cond E]]]; rewrite E;
      cbn; [discriminate| |];
      destruct (clausesAll fieldTypes filters) as [e'|ds]; cbn; try discriminate;
      intros H; injection H as <-;
      destruct (IH ds eq_refl) as [Hlen Hin].
    + split; [cbn; lia|].
      intros cl Hcl. destruct (Hin cl Hcl) as (c' & Hc' & Hf).
      exists c'. split; [now right|assumption].
    + split; [cbn; lia|].
      intros cl [<-|Hcl].
      * exists c. split; [now left|reflexivity].
      * destruct (Hin cl Hcl) as (c' & Hc' & Hf).
        exists c'. split; [now right|assumption].
Qed.

(** X8. [applyDynamoDBFilters] never touches the table of the query and
    never removes a clause: it appends one clause per filter string at most,
    each on the field that one of the filter strings names. *)
Theorem applyDynamoDBFilters_appends (q q' : Scan) (filters : list string)
    (fieldTypes : FieldTypes) :
  applyDynamoDBFilters q filters fieldTypes = ret q' ->
  table q' = table q /\
  exists added,
    clauses q' = clauses q ++ added /\
    (List.length added <= List.length filters)%nat /\
    forall cl, In cl added -> exists c, In c filters /\ fst cl = fieldOf c.
Proof.
  rewrite applyDynamoDBFilters_clauses.
  destruct (clausesAll fieldTypes filters) as [e|cs] eqn:E; cbn; [discriminate|].
  intros H. injection H as <-. split; [reflexivity|].
  exists cs. split; [reflexivity|].
  exact (clausesAll_bound fieldTypes filters cs E).
Qed.

(** X9. The field types matter to the six comparisons only: a filter string
    with any other operator ([cont], [between], [isnull], [notnull], an
    unknown or an absent one) does the same under any two type maps. *)
Theorem fieldTypes_only_for_comparisons (types types' : FieldTypes) (q : Scan)
    (c : string) :
  (forall op, operatorOf c = Some op ->
     existsb (String.eqb op) ["eq"; "ne"; "gt"; "gte"; "lt"; "lte"] = false) ->
  applyFilter types q c = applyFilter types' q c.
Proof.
  unfold operatorOf, applyFilter. cbv beta zeta. intros H.
  destruct (nth_error (split c "||") 1) as [op|]; [|reflexivity].
  specialize (H op eq_refl). cbn [existsb] in H.
  repeat (apply orb_false_elim in H as [? H]).
  repeat match goal with E : String.eqb op _ = false |- _ => rewrite E; clear E end.
  reflexivity.
Qed.

(** X10. A [between] filter string without a third part is not dropped: it
    makes the whole query throw a [TypeError], before any scan, as soon as
    the filter strings in front of it have been applied. *)
Theorem between_without_value_throws (fieldTypes : FieldTypes) (c : string) :
  operatorOf c = Some "between" -> valueOf c = None ->
  forall model before after sort page limit q,
    applyDynamoDBFilters (scan model) before fieldTypes = ret q ->
    exists msg,
      processQuery model (before ++ c :: after) fieldTypes sort page limit =
      throw (TypeError msg).
Proof.
  intros Hop Hval model before after sort page limit q Hq.
  assert (Hc : exists msg, clausesFor fieldTypes c = throw (TypeError msg)).
  { unfold clausesFor, applyFilter. unfold operatorOf, valueOf in Hop, Hval.
    rewrite Hop, Hval. cbn. eauto. }
  destruct Hc as [msg Hc]. exists msg.
  rewrite applyDynamoDBFilters_clauses in Hq.
  rewrite processQuery_unfold, clausesAll_app, clausesAll_cons, Hc.
  destruct (clausesAll fieldTypes before); [discriminate|reflexivity].
Qed.

End FilterFacts.

(** ** What a query returns *)

Section QueryFacts.
Context {rt : Runtime} {store : Store}.

Lemma filter_shrinks {A} (f g : A -> bool) (l : list A) :
  (forall x, g x = true -> f x = true) ->
  incl (filter g l) (filter f l) /\
  (List.length (filter g l) <= List.length (filter f l))%nat.
Proof.
  intros H. split.
  - intros x Hx. apply filter_In in Hx as [Hl Hg]. apply filter_In. auto.
  - induction l as [|x l IH]; cbn; [lia|].
    destruct (g x) eqn:Gx.
    + rewrite (H x Gx). cbn. lia.
    + destruct (f x); cbn; lia.
Qed.

(** X11. A further condition never brings a record in: the result under
    [conditions ++ more] is contained in the result under [conditions], and
    no longer. In particular every filtered result is drawn from the records
    of the table. *)
Theorem more_conditions_fewer_records (fieldTypes : FieldTypes) (R : list Item)
    (conditions more : list string) (out out' : list Item) :
  filtered fieldTypes R conditions = ret out ->
  filtered fieldTypes R (conditions ++ more) = ret out' ->
  incl out' out /\ incl out R /\
  (List.length out' <= List.length out <= List.length R)%nat.
Proof.
  rewrite !filtered_clauses, clausesAll_app.
  destruct (clausesAll fieldTypes conditions) as [e|cs]; cbn; [discriminate|].
  destruct (clausesAll fieldTypes more) as [e|ds]; cbn; [discriminate|].
  intros E E'. injection E as <-. injection E' as <-.
  destruct (filter_shrinks (matches cs) (matches (cs ++ ds)) R) as [Hi Hl].
  { intros x. rewrite matches_app. intros H. now apply andb_prop in H as [H _]. }
  destruct (filter_shrinks (fun _ => true) (matches cs) R) as [Hi' Hl'];
    [reflexivity|].
  assert (Hall : filter (fun _ : Item => true) R = R).
  { clear. induction R as [|x R IH]; cbn; [reflexivity|now rewrite IH]. }
  rewrite Hall in Hi', Hl'. repeat split; assumption.
Qed.

Lemma clausesAll_perm (fieldTypes : FieldTypes) (cs ds : list string) :
  Permutation cs ds ->
  forall ks, clausesAll fieldTypes cs = ret ks ->
  exists ks', clausesAll fieldTypes ds = ret ks' /\ Permutation ks ks'.
Proof.
  induction 1 as [|c cs ds Hp IH|c d cs|cs ds es H1 IH1 H2 IH2]; intros ks.
  - intros E. exists ks. split; [assumption|reflexivity].
  - rewrite !clausesAll_cons.
    destruct (clausesFor fieldTypes c) as [e|k]; cbn; [discriminate|].
    destruct (clausesAll fieldTypes cs) as [e|k1]; cbn; [discriminate|].
    intros E. injection E as <-.
    destruct (IH k1 eq_refl) as (k2 & -> & Hk). cbn.
    eexists. split; [reflexivity|]. now apply Permutation_app_head.
  - rewrite !clausesAll_cons.
    destruct (clausesFor fieldTypes d) as [e|kd]; cbn; [discriminate|].
    destruct (clausesFor fieldTypes c) as [e|kc]; cbn; [discriminate|].
    destruct (clausesAll fieldTypes cs) as [e|k]; cbn; [discriminate|].
    intros E. injection E as <-.
    eexists. split; [reflexivity|].
    rewrite !app_assoc. apply Permutation_app_tail, Permutation_app_comm.
  - intros E. destruct (IH1 ks E) as (k1 & E1 & P1).
    destruct (IH2 k1 E1) as (k2 & E2 & P2).
    exists k2. split; [assumption|]. now transitivity k1.
Qed.

Lemma matches_perm (ks ks' : list Clause) (item : Item) :
  Permutation ks ks' -> matches ks item = matches ks' item.
Proof.
  unfold matches. induction 1 as [|k ks ks' _ IH|k k' ks|? ? ? _ IH1 _ IH2]; cbn.
  - reflexivity.
  - now rewrite IH.
  - destruct (holds (fst k) (snd k) item), (holds (fst k') (snd k') item);
      reflexivity.
  - congruence.
Qed.

(** X12. The order of the conditions does not matter to what is found: when
    the conditions in one order give a result, any reordering of them gives
    the same records in the same order. *)
Theorem conditions_commute (fieldTypes : FieldTypes) (R : list Item)
    (conditions reordered : list string) (out : list Item) :
  Permutation conditions reordered ->
  filtered fieldTypes R conditions = ret out ->
  filtered fieldTypes R reordered = ret out.
Proof.
  intros Hp. rewrite !filtered_clauses.
  destruct (clausesAll fieldTypes conditions) as [e|ks] eqn:E; cbn; [discriminate|].
  destruct (clausesAll_perm _ _ _ Hp ks E) as (ks' & -> & Hk). cbn.
  intros H. injection H as <-. unfold ret. f_equal.
  apply filter_ext. intros item. symmetry. now apply matches_perm.
Qed.





End QueryFacts.

(** ** OrdersService *)

Lemma split_absent (s sep : string) :
  includes s sep = false -> split s sep = [s].
Proof.
  unfold split. induction s as [|c s IH]; [reflexivity|].
  cbn [includes split_from]. intros H.
  apply orb_false_elim in H as [Hp Hs].
  now rewrite Hp, (IH Hs).
Qed.

Lemma prefix_empty (s : string) : String.prefix "" s = true.
Proof. destruct s; reflexivity. Qed.

(** No bar in [String c r]: [c] is none and [r] has none. *)
Lemma nobar_cons (c : ascii) (r : string) :
  includes (String c r) "|" = false <->
  c <> "|"%char /\ includes r "|" = false.
Proof.
  cbn [includes String.prefix]. rewrite prefix_empty.
  destruct (ascii_dec "|" c) as [<-|Hc]; cbn [orb].
  - split; [discriminate|]. intros [H _]. now destruct H.
  - split; [auto|]. now intros [_ H].
Qed.

Lemma nobar_app (x y : string) :
  includes x "|" = false -> includes y "|" = false ->
  includes (x ++ y) "|" = false.
Proof.
  intros Hx Hy. induction x as [|c x IH]; [exact Hy|].
  apply nobar_cons in Hx as [Hc Hx]. cbn [append].
  apply nobar_cons. auto.
Qed.

Lemma nobar_twice (s : string) :
  includes s "|" = false -> includes s "||" = false.
Proof.
  induction s as [|c s IH]; [reflexivity|].
  intros H. apply nobar_cons in H as [Hc Hs].
  cbn [includes String.prefix].
  destruct (ascii_dec "|" c) as [E|_]; [now destruct Hc|].
  cbn [orb]. now apply IH.
Qed.

Lemma nobar_split (sep s : string) (skip : nat) :
  includes s "|" = false ->
  Forall (fun piece => includes piece "|" = false) (split_from sep skip s).
Proof.
  revert skip. induction s as [|c s IH]; intros skip H.
  - repeat constructor.
  - apply nobar_cons in H as [Hc Hs]. cbn [split_from].
    destruct skip as [|k]; [|now apply IH].
    destruct (String.prefix sep (String c s)).
    + constructor; [reflexivity|now apply IH].
    + specialize (IH 0%nat Hs).
      destruct (split_from sep 0 s) as [|piece pieces].
      * repeat constructor. apply nobar_cons. auto.
      * inversion IH; subst. constructor; [|assumption].
        apply nobar_cons. auto.
Qed.

Section Orders.
Context {rt : Runtime} {store : Store}.

(** A request with one filter string that has no [||] in it, no sort and
    the first page: the first [limit] items of the plain scan. *)
Lemma unparsed_filter_page (orderModel : Model) (f : string) (limit : Z) :
  includes f "||" = false -> 0 <= limit ->
  processQuery orderModel [f] OrderRepository.getFieldTypes "" 1 limit =
  (all <- exec (scan orderModel) ;;
   ret (applyPagination all 1 limit)).
Proof.
  intros Hf Hl.
  assert (Hdrop : forall q, applyFilter OrderRepository.getFieldTypes q f = ret q).
  { intros q. apply applyFilter_default. unfold operatorOf.
    rewrite (split_absent f "||" Hf). discriminate. }
  rewrite (processQuery_skip _ f Hdrop orderModel [] [] "" 1 limit).
  rewrite processQuery_unfold. cbn.
  now rewrite extend_nil.
Qed.

Lemma first_page_data (all : list Item) (limit : Z) :
  0 <= limit ->
  data (applyPagination all 1 limit) = firstn (Z.to_nat limit) all.
Proof.
  intros Hl. unfold applyPagination. cbn [data].
  replace ((1 - 1) * limit) with 0 by lia.
  now rewrite slice_window by lia.
Qed.

(** X14. [getOrdersByStatus] does not select by status: its filter string
    [status:<n>] has no [||], so it is dropped, and the answer is the first
    1000 orders of the table in scan order, for every status (as long as the
    number is not written with [||] in it). *)
Theorem getOrdersByStatus_all_orders (orderModel : Model) (status : jsnum) :
  includes (toStr (VNumber status)) "||" = false ->
  OrdersService.getOrdersByStatus orderModel status =
  (all <- OrdersService.getAllOrders orderModel ;; ret (firstn 1000 all)).
Proof.
  intros Hs.
  unfold OrdersService.getOrdersByStatus, OrdersService.getAllOrders,
    OrderRepository.findAllPaginated, OrderRepository.findAll.
  rewrite unparsed_filter_page by (trivial; lia).
  destruct (exec (scan orderModel)) as [e|all]; [reflexivity|].
  unfold ret. cbn [Js.bind]. now rewrite first_page_data by lia.
Qed.


(** X16. [getOrdersByDateRange] does not select by date either: for two
    dates whose ISO form has no bar, its filter string
    [createdAt:<start>,<end>] is dropped and the answer is the first 1000
    orders of the table in scan order. *)
Theorem getOrdersByDateRange_all_orders (toISOString : jsnum -> Result string)
    (orderModel : Model) (startDate endDate : jsnum) (startIso endIso : string) :
  toISOString startDate = ret startIso -> toISOString endDate = ret endIso ->
  includes startIso "|" = false -> includes endIso "|" = false ->
  OrdersService.getOrdersByDateRange toISOString orderModel startDate endDate =
  (all <- OrdersService.getAllOrders orderModel ;; ret (firstn 1000 all)).
Proof.
  intros Es Ee Hs He.
  unfold OrdersService.getOrdersByDateRange, OrdersService.getAllOrders,
    OrderRepository.findAllPaginated, OrderRepository.findAll.
  rewrite Es, Ee. cbn [Js.bind ret].
  assert (Hpart : forall iso, includes iso "|" = false ->
             includes (hd EmptyString (split iso "T")) "|" = false).
  { intros iso H. pose proof (nobar_split "T" iso 0 H) as F. unfold split.
    destruct (split_from "T" 0 iso); [reflexivity|now inversion F]. }
  rewrite unparsed_filter_page; [| |lia].
  - destruct (exec (scan orderModel)) as [e|all]; [reflexivity|].
    unfold ret. cbn [Js.bind]. now rewrite first_page_data by lia.
  - apply nobar_twice.
    repeat apply nobar_app; auto; reflexivity.
Qed.

End Orders.

(** ** Field types read from a schema *)

Import SchemaTypes.

Lemma filterType_valid (name : option string) :
  In (filterType name) ["String"; "Number"; "Date"; "Boolean"].
Proof.
  unfold filterType. destruct name as [n|]; [|now left].
  destruct (String.eqb n "String"); [now left|].
  destruct (String.eqb n "Number"); [right; now left|].
  destruct (String.eqb n "Date"); [right; right; now left|].
  destruct (String.eqb n "Boolean"); [right; right; right; now left|].
  now left.
Qed.

(** X17. Whatever the model looks like, every type [extractFieldTypes]
    returns is one of [String], [Number], [Date] and [Boolean]; a null model
    gives the empty map; and so does a model whose own schema has no
    attributes, even when [$__] or the constructor holds a schema that has
    some. *)
Theorem extractFieldTypes_types (model : option ModelShape) :
  (forall f t, In (f, t) (extractFieldTypes model) ->
     In t ["String"; "Number"; "Date"; "Boolean"]) /\
  extractFieldTypes None = [] /\
  (forall inner ctor,
     extractFieldTypes
       (Some {| schema := Some {| attributes := None |};
                internalSchema := inner; constructorSchema := ctor |}) = []).
Proof.
  split; [|split; reflexivity].
  intros f t. unfold extractFieldTypes.
  set (chosen := match model with Some m => _ | None => None end).
  destruct chosen as [s|]; [|intros []].
  destruct (attributes s) as [attrs|]; [|intros []].
  intros H. apply in_flat_map in H as ((k & d) & _ & H). cbn in H.
  destruct d as [name|]; [|destruct H].
  destruct H as [E|[]]. injection E as _ <-. apply filterType_valid.
Qed.



(** * The further properties on the reference host *)

Section Samples.
Local Existing Instance Ref.runtime.
Local Existing Instance Ref.store.

Lemma pages_partition_witness :
  1 <= 4 /\
  exists k,
    pageCount (applyPagination Ref.six 1 4) = JInt (Z.of_nat k) /\
    let pages := map (fun p => applyPagination Ref.six (Z.of_nat p) 4) (seq 1 k) in
    List.concat (map data pages) = Ref.six /\
    fold_right Z.add 0 (map count pages) = Z.of_nat (List.length Ref.six).
Proof. split; [lia|]. apply (pages_partition Ref.six 4). lia. Defined.

Lemma page_count_formula_witness :
  1 <= 2 /\ 1 <= 4 /\
  let r := applyPagination Ref.six 2 4 in
  count r = Z.max 0 (Z.min 4 (total r - (2 - 1) * 4)).
Proof.
  split; [lia|]. split; [lia|]. apply (page_count_formula Ref.six 2 4); lia.
Defined.

Lemma page_below_one_witness :
  1 <= 2 /\ data (applyPagination Ref.six (- 1) 2) = [30; 40].
Proof.
  split; [lia|].
  exact (proj2 (page_below_one Ref.six 2 ltac:(lia)) 1 ltac:(lia) ltac:(cbn; lia)).
Defined.


Lemma applySorting_integers_ordered_witness :
  "id,DESC" <> "" /\
  Forall (integerOrNull (sortFieldOf "id,DESC")) Ref.sparse /\
  forall i j a b x y,
    (i < j)%nat ->
    nth_error (applySorting Ref.sparse "id,DESC") i = Some a ->
    nth_error (applySorting Ref.sparse "id,DESC") j = Some b ->
    get a (sortFieldOf "id,DESC") = VNumber (JInt x) ->
    get b (sortFieldOf "id,DESC") = VNumber (JInt y) ->
    if isDescOf "id,DESC" then y <= x else x <= y.
Proof.
  assert (H : Forall (integerOrNull (sortFieldOf "id,DESC")) Ref.sparse).
  { unfold Ref.sparse, integerOrNull.
    repeat (apply Forall_cons;
            [first [left; reflexivity | right; eexists; reflexivity]|]).
    apply Forall_nil. }
  split; [discriminate|]. split; [exact H|].
  apply (applySorting_integers_ordered Ref.sparse "id,DESC"); [discriminate|exact H].
Defined.

Lemma convertFilterValue_edges_witness :
  (exists e, convertFilterValue "active" None [("active", "Boolean")] = throw e) /\
  convertFilterValue "nickname" (Some "Jo") [("active", "Boolean")] = ret (VString "Jo").
Proof.
  split.
  - apply (proj1 (convertFilterValue_edges "active" [("active", "Boolean")]) None).
    split; reflexivity.
  - apply (proj2 (proj2 (convertFilterValue_edges "nickname" [("active", "Boolean")]))).
    intros t E. discriminate.
Defined.

Lemma applyDynamoDBFilters_appends_witness :
  let q := scan (healthy Ref.orders) in
  let q' := where_ q "status" (CEq (Ref.num 1)) in
  applyDynamoDBFilters q ["status||eq||1"; "status:1"] Ref.orderTypes = ret q' /\
  table q' = table q /\
  exists added,
    clauses q' = clauses q ++ added /\
    (List.length added <= 2)%nat /\
    forall cl, In cl added ->
      exists c, In c ["status||eq||1"; "status:1"] /\ fst cl = fieldOf c.
Proof.
  split; [reflexivity|].
  apply (applyDynamoDBFilters_appends (scan (healthy Ref.orders))
           (where_ (scan (healthy Ref.orders)) "status" (CEq (Ref.num 1)))
           ["status||eq||1"; "status:1"] Ref.orderTypes).
  reflexivity.
Defined.

Lemma fieldTypes_only_for_comparisons_witness :
  (forall op, operatorOf "status||cont||1" = Some op ->
     existsb (String.eqb op) ["eq"; "ne"; "gt"; "gte"; "lt"; "lte"] = false) /\
  forall q,
    applyFilter Ref.orderTypes q "status||cont||1" = applyFilter [] q "status||cont||1".
Proof.
  assert (H : forall op, operatorOf "status||cont||1" = Some op ->
                existsb (String.eqb op) ["eq"; "ne"; "gt"; "gte"; "lt"; "lte"] = false).
  { intros op E. cbv in E. injection E as <-. reflexivity. }
  split; [exact H|]. intros q.
  exact (fieldTypes_only_for_comparisons Ref.orderTypes [] q "status||cont||1" H).
Defined.

Lemma between_without_value_throws_witness :
  operatorOf "createdAt||between" = Some "between" /\
  valueOf "createdAt||between" = None /\
  exists msg,
    processQuery (healthy Ref.orders)
      (["status||eq||1"] ++ "createdAt||between" :: []) Ref.orderTypes "id,DESC" 1 10 =
    throw (TypeError msg).
Proof.
  split; [reflexivity|]. split; [reflexivity|].
  eapply (between_without_value_throws Ref.orderTypes "createdAt||between"
            eq_refl eq_refl (healthy Ref.orders) ["status||eq||1"] [] "id,DESC" 1 10).
  reflexivity.
Defined.

Lemma more_conditions_fewer_records_witness :
  exists out out',
    filtered Ref.orderTypes Ref.orders ["status||gte||0"] = ret out /\
    filtered Ref.orderTypes Ref.orders (["status||gte||0"] ++ ["status||eq||1"]) = ret out' /\
    incl out' out /\ incl out Ref.orders /\
    (List.length out' <= List.length out <= List.length Ref.orders)%nat.
Proof.
  eexists. eexists. split; [reflexivity|]. split; [reflexivity|].
  eapply (more_conditions_fewer_records Ref.orderTypes Ref.orders
            ["status||gte||0"] ["status||eq||1"]); reflexivity.
Defined.

Lemma conditions_commute_witness :
  Permutation ["status||gte||0"; "status||eq||1"] ["status||eq||1"; "status||gte||0"] /\
  exists out,
    filtered Ref.orderTypes Ref.orders ["status||gte||0"; "status||eq||1"] = ret out /\
    filtered Ref.orderTypes Ref.orders ["status||eq||1"; "status||gte||0"] = ret out.
Proof.
  split; [apply perm_swap|].
  eexists. split; [reflexivity|].
  eapply (conditions_commute Ref.orderTypes Ref.orders
            ["status||gte||0"; "status||eq||1"] ["status||eq||1"; "status||gte||0"]);
    [apply perm_swap|reflexivity].
Defined.


Lemma getOrdersByStatus_all_orders_witness :
  includes (toStr (VNumber (JInt 1))) "||" = false /\
  OrdersService.getOrdersByStatus (healthy Ref.orders) (JInt 1) =
  (all <- OrdersService.getAllOrders (healthy Ref.orders) ;; ret (firstn 1000 all)).
Proof.
  split; [reflexivity|].
  apply (getOrdersByStatus_all_orders (healthy Ref.orders) (JInt 1)). reflexivity.
Defined.

Lemma getOrdersByDateRange_all_orders_witness :
  Ref.isoString (JInt 0) = ret "1970-01-01T00:00:00.000Z" /\
  includes "1970-01-01T00:00:00.000Z" "|" = false /\
  OrdersService.getOrdersByDateRange Ref.isoString (healthy Ref.orders) (JInt 0) (JInt 0) =
  (all <- OrdersService.getAllOrders (healthy Ref.orders) ;; ret (firstn 1000 all)).
Proof.
  split; [reflexivity|]. split; [reflexivity|].
  apply (getOrdersByDateRange_all_orders Ref.isoString (healthy Ref.orders)
           (JInt 0) (JInt 0) "1970-01-01T00:00:00.000Z" "1970-01-01T00:00:00.000Z");
    reflexivity.
Defined.

Lemma extractFieldTypes_types_witness :
  In ("tags", "String") (SchemaTypes.extractFieldTypes (Some Ref.orderShape)) /\
  In "String" ["String"; "Number"; "Date"; "Boolean"].
Proof.
  assert (H : In ("tags", "String") (SchemaTypes.extractFieldTypes (Some Ref.orderShape)))
    by (cbn; auto 10).
  split; [exact H|].
  exact (proj1 (extractFieldTypes_types (Some Ref.orderShape)) "tags" "String" H).
Defined.


End Samples.
